(** * Mistral with-items engine and executor RPC endpoint

    A shallow embedding of [mistral/workflow/with_items.py] and of
    [ExecutorServer.run_action] from [mistral/executors/executor_server.py].

    Python lists and dicts are mutable objects that several names may refer
    to, and [get_output] works on a shallow copy of the task output, so the
    embedding keeps an explicit object store: a value is an atom or a
    reference, and every function of the source is a computation over the
    store that either returns or raises a Python exception. *)

From Stdlib Require Import ZArith Lia Ascii.
From stdpp Require Import base list strings.

(** ** Values, objects and the store *)

Abbreviation loc := nat.

(** An atom or a reference to a list or dict object. *)
Inductive value : Type :=
| VNone
| VBool (b : bool)
| VInt (z : Z)
| VStr (s : string)
| VRef (l : loc).

(** A dict is kept as the list of its entries in iteration order, so that
    [keys()[0]] and [values()[0]] are the head of that list.  Keys are
    strings (variable names, publish keys, task names). *)
Definition dict := list (string * value).

Inductive obj : Type :=
| OList (items : list value)
| ODict (entries : dict).

(** The store: object [l] lives at index [l]; allocation appends. *)
Abbreviation heap := (list obj).

Inductive exn : Type :=
| AttributeError
| KeyError
| IndexError
| TypeError
| InputException.

Fixpoint dict_get (k : string) (d : dict) : option value :=
  match d with
  | [] => None
  | (k', v) :: d' => if String.eqb k k' then Some v else dict_get k d'
  end.

(** [d[k] = v]: overwrite the entry of [k] in place, or add a new entry. *)
Fixpoint dict_set (k : string) (v : value) (d : dict) : dict :=
  match d with
  | [] => [(k, v)]
  | (k', v') :: d' =>
      if String.eqb k k' then (k, v) :: d' else (k', v') :: dict_set k v d'
  end.

(** [d.update(src)] on entry lists. *)
Definition dict_update (src d : dict) : dict :=
  fold_left (fun acc kv => dict_set (fst kv) (snd kv) acc) src d.

(** Python truthiness: [None], [False], [0], [''], [[]] and [{}] are false. *)
Definition is_true (h : heap) (v : value) : bool :=
  match v with
  | VNone => false
  | VBool b => b
  | VInt z => negb (Z.eqb z 0)
  | VStr s => negb (String.eqb s EmptyString)
  | VRef l =>
      match h !! l with
      | Some (OList xs) => negb (Nat.eqb (length xs) 0)
      | Some (ODict es) => negb (Nat.eqb (length es) 0)
      | None => true
      end
  end.

(** [k in s] for a string [s]: substring test. *)
Fixpoint is_substring (k s : string) : bool :=
  String.prefix k s ||
  match s with
  | EmptyString => false
  | String _ s' => is_substring k s'
  end.

Definition value_is_str (k : string) (v : value) : bool :=
  match v with
  | VStr s => String.eqb k s
  | _ => false
  end.

(** ** Computations over the store *)

Inductive outcome (A : Type) : Type :=
| Raise (e : exn)
| Return (a : A).
Arguments Raise {A} e.
Arguments Return {A} a.

Definition M (A : Type) : Type := heap -> outcome A * heap.

Definition ret {A} (a : A) : M A := fun h => (Return a, h).

Definition raise {A} (e : exn) : M A := fun h => (Raise e, h).

Definition bind {A B} (m : M A) (f : A -> M B) : M B :=
  fun h =>
    match m h with
    | (Return a, h') => f a h'
    | (Raise e, h') => (Raise e, h')
    end.

Declare Scope py_scope.
Delimit Scope py_scope with py.
Notation "x <- m ;; k" := (bind m (fun x => k))
  (at level 100, m at next level, k at level 200, right associativity)
  : py_scope.
Notation "m ;; k" := (bind m (fun _ => k))
  (at level 100, k at level 200, right associativity) : py_scope.
Local Open Scope py_scope.

(** Allocate a new object. *)
Definition new (o : obj) : M value :=
  fun h => (Return (VRef (length h)), h ++ [o]).

(** The object a value refers to, if it is a reference. *)
Definition load (v : value) : M (option obj) :=
  fun h => (Return match v with VRef l => h !! l | _ => None end, h).

Definition store (l : loc) (o : obj) : M unit :=
  fun h => (Return tt, <[l := o]> h).

Definition truthy (v : value) : M bool :=
  fun h => (Return (is_true h v), h).

(** [x or y]: [y] is evaluated only when [x] is false. *)
Definition py_or (x : value) (y : M value) : M value :=
  b <- truthy x ;; if b then ret x else y.

(** [copy.copy(v)]: a new object with the same items or entries (which
    stay shared); an atom is returned as it is. *)
Definition copy_copy (v : value) : M value :=
  o <- load v ;;
  match o with
  | Some o => new o
  | None => ret v
  end.

(** [k in c] *)
Definition contains (k : string) (c : value) : M bool :=
  match c with
  | VStr s => ret (is_substring k s)
  | VRef _ =>
      o <- load c ;;
      match o with
      | Some (ODict d) => ret (bool_decide (is_Some (dict_get k d)))
      | Some (OList xs) => ret (existsb (value_is_str k) xs)
      | None => raise TypeError
      end
  | _ => raise TypeError
  end.

(** [c[k]] for a string [k]. *)
Definition getitem (c : value) (k : string) : M value :=
  o <- load c ;;
  match o with
  | Some (ODict d) =>
      match dict_get k d with
      | Some v => ret v
      | None => raise KeyError
      end
  | _ => raise TypeError
  end.

(** [c[k] = v] for a string [k]. *)
Definition setitem (c : value) (k : string) (v : value) : M unit :=
  o <- load c ;;
  match c, o with
  | VRef l, Some (ODict d) => store l (ODict (dict_set k v d))
  | _, _ => raise TypeError
  end.

(** [c[i]] for an integer index [i >= 0]. *)
Definition getitem_index (c : value) (i : nat) : M value :=
  o <- load c ;;
  match o with
  | Some (OList xs) =>
      match xs !! i with
      | Some v => ret v
      | None => raise IndexError
      end
  | Some (ODict _) => raise KeyError
  | None => raise TypeError
  end.

(** [c.append(x)] *)
Definition append (c : value) (x : value) : M unit :=
  o <- load c ;;
  match c, o with
  | VRef l, Some (OList xs) => store l (OList (xs ++ [x]))
  | _, _ => raise AttributeError
  end.

(** [c.update(src)] *)
Definition update (c : value) (src : value) : M unit :=
  o <- load c ;;
  match c, o with
  | VRef l, Some (ODict d) =>
      s <- load src ;;
      match s with
      | Some (ODict sd) => store l (ODict (dict_update sd d))
      | _ => raise TypeError
      end
  | _, _ => raise AttributeError
  end.

(** [c.get(k)] *)
Definition get (c : value) (k : string) : M value :=
  o <- load c ;;
  match o with
  | Some (ODict d) => ret (default VNone (dict_get k d))
  | _ => raise AttributeError
  end.

(** [c.keys()], [c.values()], [c.items()]: the source is Python 2, where
    these return lists, which it indexes with [[0]]. *)
Definition keys (c : value) : M (list string) :=
  o <- load c ;;
  match o with
  | Some (ODict d) => ret (map fst d)
  | _ => raise AttributeError
  end.

Definition values (c : value) : M (list value) :=
  o <- load c ;;
  match o with
  | Some (ODict d) => ret (map snd d)
  | _ => raise AttributeError
  end.

Definition items (c : value) : M (list (string * value)) :=
  o <- load c ;;
  match o with
  | Some (ODict d) => ret d
  | _ => raise AttributeError
  end.

(** [xs[0]] on a Python list the interpreter just built. *)
Definition first {A} (xs : list A) : M A :=
  match xs with
  | x :: _ => ret x
  | [] => raise IndexError
  end.

(** [len(v)] *)
Definition len (v : value) : M nat :=
  match v with
  | VStr s => ret (String.length s)
  | VRef _ =>
      o <- load v ;;
      match o with
      | Some (OList xs) => ret (length xs)
      | Some (ODict d) => ret (length d)
      | None => raise TypeError
      end
  | _ => raise TypeError
  end.

(** [isinstance(v, list)] *)
Definition isinstance_list (v : value) : M bool :=
  o <- load v ;;
  match o with
  | Some (OList _) => ret true
  | _ => ret false
  end.

(** The items of a list, as a [for] loop over it sees them.  Only
    [calc_input] iterates, and only after [validate_input] has admitted
    nothing but lists, so every other value is left as a [TypeError]. *)
Definition iter_list (v : value) : M (list value) :=
  o <- load v ;;
  match o with
  | Some (OList xs) => ret xs
  | _ => raise TypeError
  end.

(** [for x in xs: body(x)] *)
Fixpoint for_each {A} (xs : list A) (body : A -> M unit) : M unit :=
  match xs with
  | [] => ret tt
  | x :: xs' => body x ;; for_each xs' body
  end.

(** [[f(x) for x in xs]] *)
Fixpoint list_comp {A B} (f : A -> M B) (xs : list A) : M (list B) :=
  match xs with
  | [] => ret []
  | x :: xs' => y <- f x ;; ys <- list_comp f xs' ;; ret (y :: ys)
  end.

(** [all(f(x) for x in xs)]: stops at the first false. *)
Fixpoint all_gen {A} (f : A -> M bool) (xs : list A) : M bool :=
  match xs with
  | [] => ret true
  | x :: xs' => b <- f x ;; if b then all_gen f xs' else ret false
  end.

(** [enumerate(xs)] *)
Definition enumerate {A} (xs : list A) : list (nat * A) :=
  combine (seq 0 (length xs)) xs.

(** ** The records the engine passes in *)

(** [task_spec]: [get_publish()] and [get_with_items()] return [None] or a
    dict. *)
Record TaskSpec : Type := {
  get_publish : value;
  get_with_items : value
}.

(** [raw_result]: the data and the error of one finished iteration. *)
Record RawResult : Type := {
  data : value;
  error : value
}.

(** [task_db]: the task execution record. *)
Record TaskDb : Type := {
  name : string;
  input : value;
  output : value
}.

Definition set_output (task_db : TaskDb) (v : value) : TaskDb :=
  {| name := name task_db; input := input task_db; output := v |}.

(** ** with_items.py *)

Section WithItems.

(** [expr.evaluate_recursively] lives in [mistral/expressions.py]; the
    engine only relies on it being a function of the publish clause and
    the context. *)
Variable evaluate_recursively : value -> value -> M value.

Definition _get_output_key (task_spec : TaskSpec) : M (option string) :=
  b <- truthy (get_publish task_spec) ;;
  if b then
    ks <- keys (get_publish task_spec) ;;
    k <- first ks ;;
    ret (Some k)
  else ret None.

(** [if out_key:] for a key that is [None] or a string. *)
Definition key_true (out_key : option string) : bool :=
  match out_key with
  | Some k => negb (String.eqb k EmptyString)
  | None => false
  end.

Definition key_str (out_key : option string) : string :=
  match out_key with
  | Some k => k
  | None => EmptyString
  end.

(** Returns the updated [task_db] (its [output] is set to [{}] when it
    was empty) together with the returned task output. *)
Definition get_output (task_db : TaskDb) (task_spec : TaskSpec)
    (raw_result : RawResult) : M (TaskDb * value) :=
  let t_name := name task_db in
  let e_data := error raw_result in
  (* Calc output for with-items (only list form is used). *)
  ctx <- py_or (data raw_result) (new (ODict [])) ;;
  published <- evaluate_recursively (get_publish task_spec) ctx ;;
  filled <- truthy (output task_db) ;;
  task_db <- (if filled then ret task_db
              else d <- new (ODict []) ;; ret (set_output task_db d)) ;;
  task_output <- copy_copy (output task_db) ;;
  out_key <- _get_output_key task_spec ;;
  (if key_true out_key then
     let out_key := key_str out_key in
     present <- contains out_key task_output ;;
     (if present then
        s <- getitem task_output out_key ;;
        g <- get published out_key ;;
        v <- py_or g (ret e_data) ;;
        append s v
      else
        g <- get published out_key ;;
        v <- py_or g (ret e_data) ;;
        s <- new (OList [v]) ;;
        setitem task_output out_key s) ;;
     (* Add same result to task output under key 'task'. *)
     s <- getitem task_output out_key ;;
     inner <- new (ODict [(out_key, s)]) ;;
     outer <- new (ODict [(t_name, inner)]) ;;
     setitem task_output "task" outer
   else
     present <- contains "task" task_output ;;
     if negb present then
       v <- py_or VNone (ret e_data) ;;
       s <- new (OList [v]) ;;
       inner <- new (ODict [(t_name, s)]) ;;
       arg <- new (ODict [("task", inner)]) ;;
       update task_output arg
     else
       t <- getitem task_output "task" ;;
       s <- getitem t t_name ;;
       v <- py_or VNone (ret e_data) ;;
       append s v) ;;
  ret (task_db, task_output).

Definition validate_input (with_items_input : value) : M unit :=
  (* Take only mapped values and check them. *)
  vs <- values with_items_input ;;
  flags <- list_comp isinstance_list vs ;;
  if negb (forallb id flags) then raise InputException
  else
    v0 <- first vs ;;
    required_len <- len v0 ;;
    same <- all_gen (fun v => n <- len v ;; ret (Nat.eqb n required_len)) vs ;;
    if negb same then raise InputException else ret tt.

Definition calc_input (with_items_input : value) : M value :=
  validate_input with_items_input ;;
  action_input_collection <- new (OList []) ;;
  kvs <- items with_items_input ;;
  for_each kvs (fun kv =>
    let key := fst kv in
    xs <- iter_list (snd kv) ;;
    for_each (enumerate xs) (fun ix =>
      let index := fst ix in
      iter_context <- new (ODict [(key, snd ix)]) ;;
      n <- len action_input_collection ;;
      if Nat.leb n index then append action_input_collection iter_context
      else
        d <- getitem_index action_input_collection index ;;
        update d iter_context)) ;;
  ret action_input_collection.

Definition is_iteration_incomplete (task_db : TaskDb)
    (task_spec : TaskSpec) : M bool :=
  let with_items_spec := get_with_items task_spec in
  ks <- keys with_items_spec ;;
  main_key <- first ks ;;
  src <- getitem (input task_db) main_key ;;
  iterations_count <- len src ;;
  output_key <- _get_output_key task_spec ;;
  index <- (if key_true output_key then
              t <- getitem (output task_db) "task" ;;
              tn <- getitem t (name task_db) ;;
              s <- getitem tn (key_str output_key) ;;
              len s
            else
              t <- getitem (output task_db) "task" ;;
              tn <- getitem t (name task_db) ;;
              len tn) ;;
  ret (Nat.ltb index iterations_count).

End WithItems.

(** ** The engine around the accumulator *)

Section Engine.

Variable evaluate_recursively : value -> value -> M value.

(** Modelled from the spec: the engine's loop over arriving results is
    not under src/.  The system overview has it update the task's output
    with what the accumulator returns, once per result:
    [task_db.output = get_output(task_db, task_spec, raw_result)]. *)
Fixpoint accumulate (task_db : TaskDb) (task_spec : TaskSpec)
    (results : list RawResult) : M TaskDb :=
  match results with
  | [] => ret task_db
  | r :: rs =>
      p <- get_output evaluate_recursively task_db task_spec r ;;
      accumulate (set_output (fst p) (snd p)) task_spec rs
  end.

End Engine.

(** Modelled from the spec: [mistral/expressions.py] is not under src/.
    The interface section gives the evaluator as
    [evaluate(expression_spec, context)]; this instance evaluates a dict entry by entry into a new dict, reads
    an expression [$.x] as the entry [x] of the context ([None] when the
    context has none) and leaves every other value as it is. *)
Definition eval_path (ctx : dict) (e : value) : value :=
  match e with
  | VStr (String "$"%char (String "."%char x)) => default VNone (dict_get x ctx)
  | _ => e
  end.

Definition evaluate_paths (e ctx : value) : M value :=
  o <- load e ;;
  c <- load ctx ;;
  match o with
  | Some (ODict es) =>
      let cd := match c with Some (ODict cd) => cd | _ => [] end in
      new (ODict (map (fun kv => (fst kv, eval_path cd (snd kv))) es))
  | _ => ret e
  end.

(** ** Reading a value back out of the store *)

(** The Python value a store value stands for, as a tree. *)
Inductive pyval : Type :=
| PNone
| PBool (b : bool)
| PInt (z : Z)
| PStr (s : string)
| PList (xs : list pyval)
| PDict (es : list (string * pyval)).

(** [None] when the fuel runs out (a cyclic structure) or a reference
    dangles. *)
Fixpoint snapshot (fuel : nat) (h : heap) (v : value) : option pyval :=
  match v with
  | VNone => Some PNone
  | VBool b => Some (PBool b)
  | VInt z => Some (PInt z)
  | VStr s => Some (PStr s)
  | VRef l =>
      match fuel with
      | 0 => None
      | S n =>
          match h !! l with
          | Some (OList xs) => PList <$> mapM (snapshot n h) xs
          | Some (ODict es) =>
              PDict <$> mapM (fun kv => pair (fst kv) <$> snapshot n h (snd kv)) es
          | None => None
          end
      end
  end.

Definition run_snapshot (m : M value) (h : heap) : outcome (option pyval) :=
  match m h with
  | (Return v, h') => Return (snapshot 8 h' v)
  | (Raise e, _) => Raise e
  end.

(** ** Reading task specs and task outputs *)

(** A value is valid in a store when it is an atom or refers to an object
    of the store. *)
Definition valid (h : heap) (v : value) : bool :=
  match v with
  | VRef l => Nat.ltb l (length h)
  | _ => true
  end.

Definition list_at (h : heap) (v : value) : option (list value) :=
  match v with
  | VRef l => match h !! l with Some (OList xs) => Some xs | _ => None end
  | _ => None
  end.

Definition dict_at (h : heap) (v : value) : option dict :=
  match v with
  | VRef l => match h !! l with Some (ODict d) => Some d | _ => None end
  | _ => None
  end.

(** [v[k1][k2]...] through nested dicts. *)
Fixpoint lookup_path (h : heap) (v : value) (ks : list string) : option value :=
  match ks with
  | [] => Some v
  | k :: ks' =>
      match dict_at h v with
      | Some d =>
          match dict_get k d with
          | Some v' => lookup_path h v' ks'
          | None => None
          end
      | None => None
      end
  end.

(** The entries [get_output] starts from: those of the dict
    [task_db.output], or none when [task_db.output] is false and [{}]
    takes its place. *)
Definition output_entries (h : heap) (out : value) : option dict :=
  if is_true h out then dict_at h out else Some [].

(** The designated output key of a publish clause: the first key of the
    dict [get_publish()], when that key is a non-empty string. *)
Definition designated_key (h : heap) (spec : TaskSpec) : option string :=
  match dict_at h (get_publish spec) with
  | Some ((k, _) :: _) => if String.eqb k EmptyString then None else Some k
  | _ => None
  end.

(** [published.get(k)] for a published dict whose entry is valid. *)
Definition projected (h : heap) (published : value) (k : string) : option value :=
  match dict_at h published with
  | Some proj =>
      let g := default VNone (dict_get k proj) in
      if valid h g then Some g else None
  | None => None
  end.

(** The items of the sequence stored under [k], none before the first
    result. *)
Definition sequence_under (h : heap) (es : dict) (k : string)
    : option (list value) :=
  match dict_get k es with
  | Some v => list_at h v
  | None => Some []
  end.

(** The items of the mirror sequence [task[t_name]] of a task without
    publish clause, none before the first result. *)
Definition mirror_under (h : heap) (es : dict) (t_name : string)
    : option (list value) :=
  match dict_get "task" es with
  | Some t =>
      match lookup_path h t [t_name] with
      | Some v => list_at h v
      | None => None
      end
  | None => Some []
  end.

(** The value of [x or y] in store [h]. *)
Definition chosen (h : heap) (x y : value) : value :=
  if is_true h x then x else y.

(** What lines 57-60 of [get_output] do: build the context
    [raw_result.data or {}] and evaluate the publish clause in it. *)
Definition evaluation (ev : value → value → M value) (spec : TaskSpec)
    (r : RawResult) : M value :=
  ctx <- py_or (data r) (new (ODict [])) ;;
  ev (get_publish spec) ctx.

Definition refill (h : heap) (out : value) : heap :=
  if is_true h out then [] else [ODict []].

Definition refilled (h : heap) (task_db : TaskDb) : TaskDb :=
  if is_true h (output task_db) then task_db
  else set_output task_db (VRef (length h)).

(** Every object of [h] is still there, unchanged, in [h']. *)
Definition preserved (h h' : heap) : Prop :=
  ∀ l o, h !! l = Some o → h' !! l = Some o.

(** The evaluator returns on this task's publish clause, changes no
    existing object, and gives a dict when the clause has a designated
    key. *)
Definition evaluates (ev : value → value → M value) (spec : TaskSpec)
    : Prop :=
  ∀ r h, ∃ pub h1,
    evaluation ev spec r h = (Return pub, h1) ∧ preserved h h1 ∧
    (is_Some (designated_key h spec) → is_Some (dict_at h1 pub)).

(** ** The loops of [calc_input] *)

Definition is_list (h : heap) (v : value) : bool :=
  bool_decide (is_Some (list_at h v)).

(** [len(v)] of a list, [0] for anything else. *)
Definition list_length (h : heap) (v : value) : nat :=
  length (default [] (list_at h v)).

(** The items of the list [v] refers to, none for anything else. *)
Definition items_of (h : heap) (v : value) : list value :=
  default [] (list_at h v).

(** Every value of the mapping is a list of length [L]. *)
Definition lists_of_length (h : heap) (L : nat) (d : dict) : Prop :=
  Forall (fun kv => ∃ xs, list_at h (snd kv) = Some xs ∧ length xs = L) d.

(** The store during the loops of [calc_input]: the store [h] it was
    called in, then [action_input_collection], which refers to the dicts
    [ms] that follow it, then the [iter_context] dicts that were merged
    into those. *)
Definition shape (h : heap) (ms : list dict) (tail : heap) : heap :=
  h ++ OList (map VRef (seq (S (length h)) (length ms)))
    :: map ODict ms ++ tail.

(** The body of the inner loop. *)
Definition inner_body (coll : value) (key : string) (ix : nat * value)
    : M unit :=
  let index := fst ix in
  iter_context <- new (ODict [(key, snd ix)]) ;;
  n <- len coll ;;
  if Nat.leb n index then append coll iter_context
  else
    d <- getitem_index coll index ;;
    update d iter_context.

(** The body of the outer loop. *)
Definition outer_body (coll : value) (kv : string * value) : M unit :=
  xs <- iter_list (snd kv) ;;
  for_each (enumerate xs) (inner_body coll (fst kv)).

(** [m[key] = x] for the dicts [ms] and the items [xs], one by one. *)
Fixpoint bind_items (key : string) (xs : list value) (ms : list dict)
    : list dict :=
  match xs, ms with
  | x :: xs', m :: ms' => dict_set key x m :: bind_items key xs' ms'
  | _, _ => ms
  end.

Definition bind_source (h : heap) (ms : list dict) (kv : string * value)
    : list dict :=
  bind_items (fst kv) (items_of h (snd kv)) ms.

(** ** executor_server.py *)

Section ExecutorServer.

(** What travels through the server is opaque to it: the arguments of
    the request, the action result, and the state of the process the
    executor and the logger act on. *)
Variables ActionExId ActionCls ActionAttrs Params Result World : Type.

(** The interface of [self.executor]
    ([mistral/executors/default_executor.py] is not under src/). *)
Class Executor : Type := {
  executor_run_action :
    ActionExId → ActionCls → ActionAttrs → Params → bool → bool →
    World → Result * World
}.

(** [LOG.info] of the request line, built with [utils.cut(params)]. *)
Variable LOG_info :
  ActionExId → ActionCls → ActionAttrs → Params → World → World.

(** The RPC request context: [redelivered] is [None] when the transport
    did not set it. *)
Record RpcContext : Type := { redelivered : option bool }.

Record ExecutorServer : Type := { executor : Executor }.

(** [x or False] for [x] that is [None], [True] or [False]. *)
Definition or_False (x : option bool) : bool :=
  match x with
  | Some true => true
  | _ => false
  end.

Definition run_action (self : ExecutorServer) (rpc_ctx : RpcContext)
    (action_ex_id : ActionExId) (action_cls_str : ActionCls)
    (action_cls_attrs : ActionAttrs) (params : Params) (safe_rerun : bool)
    : World → Result * World :=
  fun w =>
    let w := LOG_info action_ex_id action_cls_str action_cls_attrs params w in
    let redelivered := or_False (redelivered rpc_ctx) in
    @executor_run_action (executor self)
      action_ex_id action_cls_str action_cls_attrs params safe_rerun
      redelivered w.

End ExecutorServer.

Arguments executor_run_action {_ _ _ _ _ _ _}.
Arguments executor {_ _ _ _ _ _}.
Arguments run_action {_ _ _ _ _ _} LOG_info self rpc_ctx.

(** ** The examples of the specification *)

(** A store with the publish clause [{result: $.output}], the results
    [{output: "a"}], [{output: "b"}] and [{output: 0}], the with-items
    input [{itemX: [1, 2], itemY: ["a", "b"]}] and a task output holding
    one result, [{result: ["a"], task: {t1: {result: ["a"]}}}]. *)
Definition store0 : heap :=
  [ ODict [("result", VStr "$.output")];
    ODict [("output", VStr "a")];
    ODict [("output", VStr "b")];
    ODict [("output", VInt 0)];
    ODict [("itemX", VRef 5); ("itemY", VRef 6)];
    OList [VInt 1; VInt 2];
    OList [VStr "a"; VStr "b"];
    ODict [("result", VRef 8); ("task", VRef 9)];
    OList [VStr "a"];
    ODict [("t1", VRef 10)];
    ODict [("result", VRef 8)];
    ODict [("task", VStr "$.output")] ].

Definition publish_result : TaskSpec :=
  {| get_publish := VRef 0; get_with_items := VRef 4 |}.

Definition publish_task : TaskSpec :=
  {| get_publish := VRef 11; get_with_items := VRef 4 |}.

Definition no_publish : TaskSpec :=
  {| get_publish := VNone; get_with_items := VRef 4 |}.

(** Task [t1] before its first result and after the result ["a"]. *)
Definition t1_new : TaskDb :=
  {| name := "t1"; input := VRef 4; output := VNone |}.

Definition t1_one : TaskDb :=
  {| name := "t1"; input := VRef 4; output := VRef 7 |}.

Definition result_a : RawResult := {| data := VRef 1; error := VNone |}.

Definition result_b : RawResult := {| data := VRef 2; error := VNone |}.

Definition result_zero : RawResult := {| data := VRef 3; error := VNone |}.

Definition result_failed : RawResult :=
  {| data := VNone; error := VStr "boom" |}.

(** Task [t2] handed the task output that task [t1] left. *)
Definition t2_one : TaskDb :=
  {| name := "t2"; input := VRef 4; output := VRef 7 |}.

(** Modelled from the spec: a result that is redelivered reaches the
    accumulator a second time (section 9: no deduplication upstream). *)
Definition redelivered_twice (r : RawResult) : list RawResult := [r; r].

(** Task [t3] iterates over the one-item collection [itemZ]. *)
Definition store1 : heap := store0 ++ [ODict [("itemZ", VRef 13)]; OList [VInt 7]].

Definition t3_new : TaskDb :=
  {| name := "t3"; input := VRef 12; output := VNone |}.

Definition no_publish_z : TaskSpec :=
  {| get_publish := VNone; get_with_items := VRef 12 |}.

(** Task [t1] without publish clause after one result:
    [{task: {t1: [None]}}]. *)
Definition store_plain : heap :=
  store0 ++ [ODict [("task", VRef 13)]; ODict [("t1", VRef 14)]; OList [VNone]].

Definition t1_plain_one : TaskDb :=
  {| name := "t1"; input := VRef 4; output := VRef 12 |}.

(** Task [t5] iterates over the empty collection [itemE] ([L = 0]); its
    output is [None], or [{}], before the first result. *)
Definition store_empty : heap :=
  [ODict [("itemE", VRef 1)]; OList []; ODict []].

Definition no_publish_e : TaskSpec :=
  {| get_publish := VNone; get_with_items := VRef 0 |}.

Definition t5_new : TaskDb :=
  {| name := "t5"; input := VRef 0; output := VNone |}.

Definition t5_empty : TaskDb :=
  {| name := "t5"; input := VRef 0; output := VRef 2 |}.

(** ** More examples *)

(** Task [t2] without publish clause, handed the task output
    [{task: {t1: [None]}}] that task [t1] left. *)
Definition t2_plain_one : TaskDb :=
  {| name := "t2"; input := VRef 4; output := VRef 12 |}.

(** Task [t1] with the publish clause [{task: $.output}] after one
    result: [{task: {t1: {task: ["a"]}}}]. *)
Definition store_task : heap :=
  store0 ++ [ODict [("task", VRef 13)]; ODict [("t1", VRef 14)];
             ODict [("task", VRef 15)]; OList [VStr "a"]].

Definition t1_task_one : TaskDb :=
  {| name := "t1"; input := VRef 4; output := VRef 12 |}.

(** Task [t1] whose previous output also holds an entry of another key:
    [{kept: 5, result: ["a"], task: {t1: {result: ["a"]}}}]. *)
Definition store_kept : heap :=
  store0 ++ [ODict [("kept", VInt 5); ("result", VRef 8); ("task", VRef 9)]].

Definition t1_kept : TaskDb :=
  {| name := "t1"; input := VRef 4; output := VRef 12 |}.

(** A computation that leaves the store as it found it, whether it
    returns or raises. *)
Definition read_only {A} (m : M A) : Prop := ∀ h, snd (m h) = h.

(** The mappings of the specification's examples that must be rejected:
    [{itemX: [1, 2], itemY: ["a"]}] and [{itemX: 5}]. *)
Definition store_bad : heap :=
  [ ODict [("itemX", VRef 1); ("itemY", VRef 2)];
    OList [VInt 1; VInt 2];
    OList [VStr "a"];
    ODict [("itemX", VInt 5)] ].

(** A task spec whose with-items clause is the empty dict, and task [t5]
    with an input that lacks the variable [itemE]. *)
Definition no_items : TaskSpec :=
  {| get_publish := VNone; get_with_items := VRef 2 |}.

Definition t5_no_input : TaskDb :=
  {| name := "t5"; input := VRef 2; output := VNone |}.

(** * Proofs *)

(** ** Entry lists *)

Lemma dict_get_set_eq k v d : dict_get k (dict_set k v d) = Some v.
Proof.
  induction d as [|[k' v'] d IH]; simpl.
  - by rewrite String.eqb_refl.
  - destruct (String.eqb k k') eqn:E; simpl; rewrite ?String.eqb_refl, ?E; done.
Qed.

Lemma dict_get_set_ne k k' v d :
  k ≠ k' → dict_get k' (dict_set k v d) = dict_get k' d.
Proof.
  intros Hne. induction d as [|[k0 v0] d IH]; simpl.
  - destruct (String.eqb k' k) eqn:E; [|done].
    apply String.eqb_eq in E. congruence.
  - destruct (String.eqb k k0) eqn:E; simpl.
    + apply String.eqb_eq in E. subst k0.
      destruct (String.eqb k' k) eqn:E'; [|done].
      apply String.eqb_eq in E'. congruence.
    + by rewrite IH.
Qed.

Lemma dict_set_id k v d : dict_get k d = Some v → dict_set k v d = d.
Proof.
  induction d as [|[k' v'] d IH]; simpl; [done|].
  destruct (String.eqb k k') eqn:E.
  - apply String.eqb_eq in E. by intros [= ->]; subst.
  - intros H. by rewrite IH.
Qed.

(** ** Running a computation step by step *)

Lemma run_bind {A B} (m : M A) (f : A → M B) h a h' :
  m h = (Return a, h') → bind m f h = f a h'.
Proof. unfold bind. by intros ->. Qed.

Lemma run_ret {A} (a : A) h : ret a h = (Return a, h).
Proof. done. Qed.

Lemma run_new o h : new o h = (Return (VRef (length h)), h ++ [o]).
Proof. done. Qed.

Lemma run_truthy v h : truthy v h = (Return (is_true h v), h).
Proof. done. Qed.

Lemma run_py_or x y h :
  py_or x y h = if is_true h x then (Return x, h) else y h.
Proof. unfold py_or, bind, truthy. by destruct (is_true h x). Qed.

Lemma run_copy_copy l o h :
  h !! l = Some o →
  copy_copy (VRef l) h = (Return (VRef (length h)), h ++ [o]).
Proof. intros H. unfold copy_copy, bind, load. by rewrite H. Qed.

Lemma run_contains k l d h :
  h !! l = Some (ODict d) →
  contains k (VRef l) h = (Return (bool_decide (is_Some (dict_get k d))), h).
Proof. intros H. unfold contains, bind, load. by rewrite H. Qed.

Lemma run_getitem k l d v h :
  h !! l = Some (ODict d) → dict_get k d = Some v →
  getitem (VRef l) k h = (Return v, h).
Proof. intros H Hk. unfold getitem, bind, load. by rewrite H, Hk. Qed.

Lemma run_setitem k v l d h :
  h !! l = Some (ODict d) →
  setitem (VRef l) k v h = (Return tt, <[l := ODict (dict_set k v d)]> h).
Proof. intros H. unfold setitem, bind, load. by rewrite H. Qed.

Lemma run_append x l xs h :
  h !! l = Some (OList xs) →
  append (VRef l) x h = (Return tt, <[l := OList (xs ++ [x])]> h).
Proof. intros H. unfold append, bind, load. by rewrite H. Qed.

Lemma run_update l d s sd h :
  h !! l = Some (ODict d) → h !! s = Some (ODict sd) →
  update (VRef l) (VRef s) h
  = (Return tt, <[l := ODict (dict_update sd d)]> h).
Proof. intros H Hs. unfold update, bind, load. by rewrite H, Hs. Qed.

Lemma run_get k l d h :
  h !! l = Some (ODict d) →
  get (VRef l) k h = (Return (default VNone (dict_get k d)), h).
Proof. intros H. unfold get, bind, load. by rewrite H. Qed.

Lemma run_keys l d h :
  h !! l = Some (ODict d) → keys (VRef l) h = (Return (map fst d), h).
Proof. intros H. unfold keys, bind, load. by rewrite H. Qed.

Lemma run_values l d h :
  h !! l = Some (ODict d) → values (VRef l) h = (Return (map snd d), h).
Proof. intros H. unfold values, bind, load. by rewrite H. Qed.

Lemma run_items l d h :
  h !! l = Some (ODict d) → items (VRef l) h = (Return d, h).
Proof. intros H. unfold items, bind, load. by rewrite H. Qed.

Lemma run_len_list l xs h :
  h !! l = Some (OList xs) → len (VRef l) h = (Return (length xs), h).
Proof. intros H. unfold len, bind, load. by rewrite H. Qed.

Lemma run_iter_list l xs h :
  h !! l = Some (OList xs) → iter_list (VRef l) h = (Return xs, h).
Proof. intros H. unfold iter_list, bind, load. by rewrite H. Qed.

Lemma run_getitem_index l xs i v h :
  h !! l = Some (OList xs) → xs !! i = Some v →
  getitem_index (VRef l) i h = (Return v, h).
Proof. intros H Hi. unfold getitem_index, bind, load. by rewrite H, Hi. Qed.

(** Lookups in a store that grew or was updated. *)

Lemma lookup_new (h : heap) o : (h ++ [o]) !! length h = Some o.
Proof. rewrite lookup_app_r by lia. by rewrite Nat.sub_diag. Qed.

Lemma lookup_store_eq (h : heap) l o o' :
  h !! l = Some o → <[l := o']> h !! l = Some o'.
Proof. intros H. apply list_lookup_insert_eq. by eapply lookup_lt_Some. Qed.

Lemma lookup_store_ne (h : heap) l l' o o' :
  h !! l = Some o → l ≠ l' → <[l' := o']> h !! l = Some o.
Proof. intros H Hne. rewrite list_lookup_insert_ne; [done|congruence]. Qed.

Lemma is_true_app h ext v :
  valid h v = true → is_true (h ++ ext) v = is_true h v.
Proof.
  destruct v as [| | | |l]; simpl; try done.
  intros Hl%Nat.ltb_lt. by rewrite lookup_app_l.
Qed.

Lemma lookup_plus (h ext : heap) i : (h ++ ext) !! (length h + i) = ext !! i.
Proof. rewrite lookup_app_r by lia. f_equal. lia. Qed.

Lemma lookup_end (h ext : heap) : (h ++ ext) !! length h = ext !! 0.
Proof. rewrite <- (Nat.add_0_r (length h)) at 1. apply lookup_plus. Qed.

Lemma insert_plus (h ext : heap) i o :
  <[length h + i := o]> (h ++ ext) = h ++ <[i := o]> ext.
Proof. apply insert_app_r. Qed.

Lemma insert_end (h ext : heap) o :
  <[length h := o]> (h ++ ext) = h ++ <[0 := o]> ext.
Proof. rewrite <- (Nat.add_0_r (length h)) at 1. apply insert_plus. Qed.

Lemma insert_old (h ext : heap) l o o' :
  h !! l = Some o' → <[l := o]> (h ++ ext) = <[l := o]> h ++ ext.
Proof. intros H. apply insert_app_l. by eapply lookup_lt_Some. Qed.

Lemma dict_at_ref h v d :
  dict_at h v = Some d → ∃ l, v = VRef l ∧ h !! l = Some (ODict d).
Proof.
  destruct v as [| | | |l]; simpl; try done.
  destruct (h !! l) as [[|]|] eqn:E; try done. intros [= ->]. eauto.
Qed.

Lemma list_at_ref h v xs :
  list_at h v = Some xs → ∃ l, v = VRef l ∧ h !! l = Some (OList xs).
Proof.
  destruct v as [| | | |l]; simpl; try done.
  destruct (h !! l) as [[|]|] eqn:E; try done. intros [= ->]. eauto.
Qed.

Lemma run_bind_inv {A B} (m : M A) (f : A → M B) h b h' :
  bind m f h = (Return b, h') →
  ∃ a h1, m h = (Return a, h1) ∧ f a h1 = (Return b, h').
Proof.
  unfold bind. destruct (m h) as [[e|a] h1]; [done|]. eauto.
Qed.

Lemma run_bind_assoc {A B C} (m : M A) (f : A → M B) (g : B → M C) h :
  bind (bind m f) g h = bind m (λ a, bind (f a) g) h.
Proof. unfold bind. by destruct (m h) as [[?|?] ?]. Qed.

Lemma run_contains_absent k l d h :
  h !! l = Some (ODict d) → dict_get k d = None →
  contains k (VRef l) h = (Return false, h).
Proof. intros H Hk. by rewrite (run_contains _ _ _ _ H), Hk. Qed.

Lemma run_contains_present k l d v h :
  h !! l = Some (ODict d) → dict_get k d = Some v →
  contains k (VRef l) h = (Return true, h).
Proof. intros H Hk. by rewrite (run_contains _ _ _ _ H), Hk. Qed.

Lemma run_py_or_ret x y h : py_or x (ret y) h = (Return (chosen h x y), h).
Proof. rewrite run_py_or. unfold chosen. by destruct (is_true h x). Qed.

Lemma insert_cons_O {A} (x a : A) l : <[0 := x]> (a :: l) = x :: l.
Proof. done. Qed.

Lemma insert_cons_S {A} (x a : A) l i :
  <[S i := x]> (a :: l) = a :: <[i := x]> l.
Proof. done. Qed.

Ltac norm :=
  rewrite <- ?app_assoc; cbn [app]; rewrite ?length_app; cbn [length];
  rewrite ?insert_end, ?insert_plus, ?insert_cons_S, ?insert_cons_O.

Ltac hl :=
  first
    [ eassumption
    | by rewrite lookup_end
    | by rewrite lookup_plus
    | apply lookup_app_l_Some; hl
    | eapply lookup_store_eq; hl
    | eapply lookup_store_ne; [hl | congruence || lia] ].

Ltac step tac := rewrite ?run_bind_assoc; erewrite run_bind; [| tac]; norm.

Section GetOutput.

Variable ev : value → value → M value.

Lemma run_get_output_key_some spec k h :
  designated_key h spec = Some k →
  _get_output_key spec h = (Return (Some k), h) ∧ key_true (Some k) = true.
Proof.
  unfold designated_key. intros H.
  destruct (dict_at h (get_publish spec)) as [[|[k' e] rest]|] eqn:Hd;
    try done.
  destruct (String.eqb k' EmptyString) eqn:Hk; [done|]. injection H as ->.
  apply dict_at_ref in Hd as (p & Hp & Hd).
  split; [|by simpl; rewrite Hk].
  unfold _get_output_key. rewrite Hp.
  rewrite (run_bind _ _ _ _ _ (run_truthy _ _)). simpl. rewrite Hd. simpl.
  by rewrite (run_bind _ _ _ _ _ (run_keys _ _ _ Hd)).
Qed.

Lemma run_get_output_key_none spec h :
  get_publish spec = VNone → _get_output_key spec h = (Return None, h).
Proof. intros Hp. unfold _get_output_key. by rewrite Hp. Qed.

Lemma designated_key_app h ext spec k :
  designated_key h spec = Some k → designated_key (h ++ ext) spec = Some k.
Proof.
  unfold designated_key.
  destruct (dict_at h (get_publish spec)) as [d|] eqn:Hd; [|done].
  apply dict_at_ref in Hd as (p & -> & Hd). simpl.
  by rewrite (lookup_app_l_Some _ _ _ _ Hd).
Qed.

Lemma get_output_publish_absent task_db spec r h pub h1 k proj entries :
  evaluation ev spec r h = (Return pub, h1) →
  designated_key h1 spec = Some k →
  dict_at h1 pub = Some proj →
  output_entries h1 (output task_db) = Some entries →
  dict_get k entries = None →
  let pre := refill h1 (output task_db) in
  let c := length h1 + length pre in
  let v := chosen (h1 ++ pre ++ [ODict entries])
             (default VNone (dict_get k proj)) (error r) in
  get_output ev task_db spec r h
  = (Return (refilled h1 task_db, VRef c),
     h1 ++ pre ++
       [ODict (dict_set "task" (VRef (c + 3)) (dict_set k (VRef (c + 1)) entries));
        OList [v]; ODict [(k, VRef (c + 1))];
        ODict [(name task_db, VRef (c + 2))]]).
Proof.
  intros Hev Hkey Hproj Hout Habs pre c v.
  apply run_bind_inv in Hev as (ctx & hc & Hor & Hev).
  apply dict_at_ref in Hproj as (q & -> & Hq).
  unfold get_output.
  rewrite (run_bind _ _ _ _ _ Hor), (run_bind _ _ _ _ _ Hev).
  rewrite (run_bind _ _ _ _ _ (run_truthy _ _)).
  unfold output_entries, refill, refilled in *.
  destruct (is_true h1 (output task_db)) eqn:Ht.
  - apply dict_at_ref in Hout as (d & Hd & Hout).
    step ltac:(apply run_ret). rewrite Hd.
    step ltac:(eapply run_copy_copy; hl).
    step ltac:(eapply run_get_output_key_some, designated_key_app, Hkey).
    rewrite (proj2 (run_get_output_key_some _ _ _ Hkey)). cbn [key_str].
    step ltac:(eapply run_contains_absent; [hl|done]).
    step ltac:(eapply run_get; hl).
    step ltac:(apply run_py_or_ret).
    step ltac:(apply run_new).
    step ltac:(eapply run_setitem; hl).
    step ltac:(eapply run_getitem; [hl|apply dict_get_set_eq]).
    step ltac:(apply run_new).
    step ltac:(apply run_new).
    step ltac:(eapply run_setitem; hl).
    subst c pre. cbn [length app]. by rewrite ?Nat.add_0_r.
  - injection Hout as <-.
    step ltac:(apply run_new).
    step ltac:(apply run_ret). cbn [output set_output].
    step ltac:(eapply run_copy_copy; hl).
    step ltac:(eapply run_get_output_key_some, designated_key_app, Hkey).
    rewrite (proj2 (run_get_output_key_some _ _ _ Hkey)). cbn [key_str].
    step ltac:(eapply run_contains_absent; [hl|done]).
    step ltac:(eapply run_get; hl).
    step ltac:(apply run_py_or_ret).
    step ltac:(apply run_new).
    step ltac:(eapply run_setitem; hl).
    step ltac:(eapply run_getitem; [hl|apply dict_get_set_eq]).
    step ltac:(apply run_new).
    step ltac:(apply run_new).
    step ltac:(eapply run_setitem; hl).
    subst c pre. cbn [length app].
    rewrite <- !Nat.add_assoc. by cbn [Nat.add].
Qed.

Lemma dict_get_nonempty k d v : dict_get k d = Some v → d ≠ [].
Proof. by destruct d. Qed.

Lemma output_entries_present h out entries k v :
  output_entries h out = Some entries → dict_get k entries = Some v →
  ∃ d, out = VRef d ∧ h !! d = Some (ODict entries).
Proof.
  unfold output_entries. intros Hout Hk.
  destruct (is_true h out).
  - by apply dict_at_ref.
  - injection Hout as <-. done.
Qed.

Lemma get_output_publish_present task_db spec r h pub h1 k proj entries s old :
  evaluation ev spec r h = (Return pub, h1) →
  designated_key h1 spec = Some k →
  dict_at h1 pub = Some proj →
  output_entries h1 (output task_db) = Some entries →
  dict_get k entries = Some (VRef s) →
  h1 !! s = Some (OList old) →
  let c := length h1 in
  let v := chosen (h1 ++ [ODict entries])
             (default VNone (dict_get k proj)) (error r) in
  get_output ev task_db spec r h
  = (Return (task_db, VRef c),
     <[s := OList (old ++ [v])]> h1 ++
       [ODict (dict_set "task" (VRef (c + 2)) entries);
        ODict [(k, VRef s)];
        ODict [(name task_db, VRef (c + 1))]]).
Proof.
  intros Hev Hkey Hproj Hout Hk Hs c v.
  apply run_bind_inv in Hev as (ctx & hc & Hor & Hev).
  apply dict_at_ref in Hproj as (q & -> & Hq).
  destruct (output_entries_present _ _ _ _ _ Hout Hk) as (d & Hd & Hdl).
  assert (Ht : is_true h1 (output task_db) = true).
  { rewrite Hd. simpl. rewrite Hdl. by destruct entries. }
  unfold get_output.
  rewrite (run_bind _ _ _ _ _ Hor), (run_bind _ _ _ _ _ Hev).
  rewrite (run_bind _ _ _ _ _ (run_truthy _ _)), Ht.
  step ltac:(apply run_ret). rewrite Hd.
  step ltac:(eapply run_copy_copy; hl).
  step ltac:(eapply run_get_output_key_some, designated_key_app, Hkey).
  rewrite (proj2 (run_get_output_key_some _ _ _ Hkey)). cbn [key_str].
  step ltac:(eapply run_contains_present; [hl|done]).
  step ltac:(eapply run_getitem; [hl|done]).
  step ltac:(eapply run_get; hl).
  step ltac:(apply run_py_or_ret). fold (chosen (h1 ++ [ODict entries])
    (default VNone (dict_get k proj)) (error r)). fold v.
  step ltac:(eapply run_append; hl).
  rewrite (insert_old _ _ _ _ _ Hs).
  subst c. remember (<[s:=OList (old ++ [v])]> h1) as h2 eqn:E2.
  assert (Hlen : length h1 = length h2) by (by rewrite E2, length_insert).
  rewrite Hlen. clear E2.
  step ltac:(eapply run_getitem; [hl|done]).
  step ltac:(apply run_new).
  step ltac:(apply run_new).
  step ltac:(eapply run_setitem; hl).
  done.
Qed.

Lemma get_output_plain_absent task_db spec r h pub h1 entries :
  get_publish spec = VNone →
  evaluation ev spec r h = (Return pub, h1) →
  output_entries h1 (output task_db) = Some entries →
  dict_get "task" entries = None →
  let pre := refill h1 (output task_db) in
  let c := length h1 + length pre in
  get_output ev task_db spec r h
  = (Return (refilled h1 task_db, VRef c),
     h1 ++ pre ++
       [ODict (dict_set "task" (VRef (c + 2)) entries);
        OList [error r]; ODict [(name task_db, VRef (c + 1))];
        ODict [("task", VRef (c + 2))]]).
Proof.
  intros Hp Hev Hout Habs pre c.
  apply run_bind_inv in Hev as (ctx & hc & Hor & Hev).
  unfold get_output.
  rewrite (run_bind _ _ _ _ _ Hor), (run_bind _ _ _ _ _ Hev).
  rewrite (run_bind _ _ _ _ _ (run_truthy _ _)).
  unfold output_entries, refill, refilled in *.
  destruct (is_true h1 (output task_db)) eqn:Ht.
  - apply dict_at_ref in Hout as (d & Hd & Hout).
    step ltac:(apply run_ret). rewrite Hd.
    step ltac:(eapply run_copy_copy; hl).
    step ltac:(by apply run_get_output_key_none). cbn [key_true].
    step ltac:(eapply run_contains_absent; [hl|done]). cbn [negb].
    step ltac:(apply run_py_or_ret). cbn [is_true].
    step ltac:(apply run_new).
    step ltac:(apply run_new).
    step ltac:(apply run_new).
    step ltac:(eapply run_update; hl).
    subst c pre. cbn [length app]. by rewrite ?Nat.add_0_r.
  - injection Hout as <-.
    step ltac:(apply run_new).
    step ltac:(apply run_ret). cbn [output set_output].
    step ltac:(eapply run_copy_copy; hl).
    step ltac:(by apply run_get_output_key_none). cbn [key_true].
    step ltac:(eapply run_contains_absent; [hl|done]). cbn [negb].
    step ltac:(apply run_py_or_ret). cbn [is_true].
    step ltac:(apply run_new).
    step ltac:(apply run_new).
    step ltac:(apply run_new).
    step ltac:(eapply run_update; hl).
    subst c pre. cbn [length app].
    rewrite <- !Nat.add_assoc. by cbn [Nat.add].
Qed.

Lemma get_output_plain_present task_db spec r h pub h1 entries o tm s old :
  get_publish spec = VNone →
  evaluation ev spec r h = (Return pub, h1) →
  output_entries h1 (output task_db) = Some entries →
  dict_get "task" entries = Some (VRef o) →
  h1 !! o = Some (ODict tm) →
  dict_get (name task_db) tm = Some (VRef s) →
  h1 !! s = Some (OList old) →
  get_output ev task_db spec r h
  = (Return (task_db, VRef (length h1)),
     <[s := OList (old ++ [error r])]> h1 ++ [ODict entries]).
Proof.
  intros Hp Hev Hout Ht Ho Htm Hs.
  apply run_bind_inv in Hev as (ctx & hc & Hor & Hev).
  destruct (output_entries_present _ _ _ _ _ Hout Ht) as (d & Hd & Hdl).
  assert (Htr : is_true h1 (output task_db) = true).
  { rewrite Hd. simpl. rewrite Hdl. by destruct entries. }
  unfold get_output.
  rewrite (run_bind _ _ _ _ _ Hor), (run_bind _ _ _ _ _ Hev).
  rewrite (run_bind _ _ _ _ _ (run_truthy _ _)), Htr.
  step ltac:(apply run_ret). rewrite Hd.
  step ltac:(eapply run_copy_copy; hl).
  step ltac:(by apply run_get_output_key_none). cbn [key_true].
  step ltac:(eapply run_contains_present; [hl|done]). cbn [negb].
  step ltac:(eapply run_getitem; [hl|done]).
  step ltac:(eapply run_getitem; [hl|done]).
  step ltac:(apply run_py_or_ret). cbn [is_true].
  step ltac:(eapply run_append; hl).
  by rewrite (insert_old _ _ _ _ _ Hs).
Qed.

Lemma lookup_plus2 (h pre ext : heap) j :
  (h ++ pre ++ ext) !! (length h + length pre + j) = ext !! j.
Proof. rewrite app_assoc, <- length_app. apply lookup_plus. Qed.

Lemma lookup_end2 (h pre ext : heap) :
  (h ++ pre ++ ext) !! (length h + length pre) = ext !! 0.
Proof. rewrite <- (Nat.add_0_r (_ + _)). apply lookup_plus2. Qed.

Lemma designated_key_frame h h' spec k :
  designated_key h spec = Some k →
  (∀ l d, h !! l = Some (ODict d) → h' !! l = Some (ODict d)) →
  designated_key h' spec = Some k.
Proof.
  unfold designated_key. intros Hk Hfr.
  destruct (dict_at h (get_publish spec)) as [d|] eqn:Hd; [|done].
  apply dict_at_ref in Hd as (p & -> & Hd). simpl.
  by rewrite (Hfr _ _ Hd).
Qed.

Lemma get_output_publish_step task_db spec r h pub h1 k proj entries old :
  evaluation ev spec r h = (Return pub, h1) →
  designated_key h1 spec = Some k →
  dict_at h1 pub = Some proj →
  output_entries h1 (output task_db) = Some entries →
  sequence_under h1 entries k = Some old →
  let g := default VNone (dict_get k proj) in
  ∃ task_db' c s o i v h',
    get_output ev task_db spec r h = (Return (task_db', VRef c), h') ∧
    name task_db' = name task_db ∧
    h' !! c = Some (ODict (dict_set "task" (VRef o) (dict_set k (VRef s) entries))) ∧
    h' !! o = Some (ODict [(name task_db, VRef i)]) ∧
    h' !! i = Some (ODict [(k, VRef s)]) ∧
    h' !! s = Some (OList (old ++ [v])) ∧
    (valid h1 g = true → v = chosen h1 g (error r)) ∧
    (∀ l d, h1 !! l = Some (ODict d) → h' !! l = Some (ODict d)).
Proof.
  intros Hev Hkey Hproj Hout Hseq g. unfold sequence_under in Hseq.
  destruct (dict_get k entries) as [sv|] eqn:Hk.
  - apply list_at_ref in Hseq as (s & -> & Hs).
    eexists task_db, _, s, _, _, _, _. split.
    { by eapply get_output_publish_present. }
    rewrite (dict_set_id _ _ _ Hk).
    assert (Hlen : length h1 = length (<[s:=OList (old ++
      [chosen (h1 ++ [ODict entries]) g (error r)])]> h1))
      by (by rewrite length_insert).
    split; [done|]. split; [by rewrite Hlen, lookup_end|].
    split; [by rewrite Hlen, lookup_plus|].
    split; [by rewrite Hlen, lookup_plus|].
    split; [apply lookup_app_l_Some; by eapply lookup_store_eq|].
    split.
    { intros Hv. unfold chosen. by rewrite is_true_app. }
    intros l d Hl. apply lookup_app_l_Some.
    eapply lookup_store_ne; [done|]. congruence.
  - injection Hseq as <-.
    eexists _, _, _, _, _, _, _. split.
    { by eapply get_output_publish_absent. }
    split; [unfold refilled; by destruct (is_true _ _)|].
    split; [by rewrite lookup_end2|].
    split; [by rewrite lookup_plus2|].
    split; [by rewrite lookup_plus2|].
    split; [by rewrite lookup_plus2|].
    split.
    { intros Hv. unfold chosen. by rewrite is_true_app. }
    intros l d Hl. by apply lookup_app_l_Some.
Qed.

Lemma get_output_plain_step task_db spec r h pub h1 entries old :
  get_publish spec = VNone →
  evaluation ev spec r h = (Return pub, h1) →
  output_entries h1 (output task_db) = Some entries →
  mirror_under h1 entries (name task_db) = Some old →
  ∃ task_db' c o s tm h',
    get_output ev task_db spec r h = (Return (task_db', VRef c), h') ∧
    name task_db' = name task_db ∧
    h' !! c = Some (ODict (dict_set "task" (VRef o) entries)) ∧
    h' !! o = Some (ODict tm) ∧
    dict_get (name task_db) tm = Some (VRef s) ∧
    h' !! s = Some (OList (old ++ [error r])).
Proof.
  intros Hp Hev Hout Hm. unfold mirror_under in Hm.
  destruct (dict_get "task" entries) as [tv|] eqn:Ht.
  - simpl in Hm.
    destruct (dict_at h1 tv) as [tm|] eqn:Htm; [|done].
    destruct (dict_get (name task_db) tm) as [sv|] eqn:Hn; [|done].
    apply dict_at_ref in Htm as (o & -> & Ho).
    apply list_at_ref in Hm as (s & -> & Hs).
    eexists task_db, _, o, s, tm, _. split.
    { by eapply get_output_plain_present. }
    rewrite (dict_set_id _ _ _ Ht).
    assert (Hlen : length h1 = length (<[s:=OList (old ++ [error r])]> h1))
      by (by rewrite length_insert).
    split; [done|]. split; [by rewrite Hlen, lookup_end|].
    split.
    { apply lookup_app_l_Some. eapply lookup_store_ne; [done|]. congruence. }
    split; [done|].
    apply lookup_app_l_Some. by eapply lookup_store_eq.
  - injection Hm as <-.
    eexists _, _, _, _, _, _. split.
    { by eapply get_output_plain_absent. }
    split; [unfold refilled; by destruct (is_true _ _)|].
    split; [by rewrite lookup_end2|].
    split; [by rewrite lookup_plus2|].
    split; [simpl; by rewrite String.eqb_refl|].
    by rewrite lookup_plus2.
Qed.

Lemma dict_at_preserved h h' v d :
  preserved h h' → dict_at h v = Some d → dict_at h' v = Some d.
Proof.
  intros Hp Hd. apply dict_at_ref in Hd as (l & -> & Hl).
  simpl. by rewrite (Hp _ _ Hl).
Qed.

Lemma list_at_preserved h h' v xs :
  preserved h h' → list_at h v = Some xs → list_at h' v = Some xs.
Proof.
  intros Hp Hd. apply list_at_ref in Hd as (l & -> & Hl).
  simpl. by rewrite (Hp _ _ Hl).
Qed.

Lemma lookup_path_preserved h h' ks : ∀ v w,
  preserved h h' → lookup_path h v ks = Some w → lookup_path h' v ks = Some w.
Proof.
  induction ks as [|k ks IH]; intros v w Hp; simpl; [done|].
  destruct (dict_at h v) as [d|] eqn:Hd; [|done].
  rewrite (dict_at_preserved _ _ _ _ Hp Hd).
  destruct (dict_get k d); [|done]. by apply IH.
Qed.

Lemma designated_key_preserved h h' spec k :
  preserved h h' → designated_key h spec = Some k →
  designated_key h' spec = Some k.
Proof.
  intros Hp Hk. eapply designated_key_frame; [done|]. intros l d. apply Hp.
Qed.

Lemma output_entries_preserved h h' out es :
  preserved h h' → output_entries h out = Some es →
  output_entries h' out = Some es.
Proof.
  unfold output_entries. intros Hp.
  destruct (is_true h out) eqn:Ht.
  - intros Hd. apply dict_at_ref in Hd as (l & -> & Hl).
    simpl in *. rewrite (Hp _ _ Hl). rewrite Hl in Ht. by rewrite Ht.
  - intros [= <-]. destruct out as [| | | |l]; simpl in *; rewrite ?Ht; try done.
    destruct (h !! l) as [o|] eqn:Hl; [|done].
    rewrite (Hp _ _ Hl). by rewrite Ht.
Qed.

Lemma mirror_under_preserved h h' es t xs :
  preserved h h' → mirror_under h es t = Some xs →
  mirror_under h' es t = Some xs.
Proof.
  unfold mirror_under. intros Hp.
  destruct (dict_get "task" es) as [tv|]; [|done].
  destruct (lookup_path h tv [t]) as [v|] eqn:Hv; [|done].
  rewrite (lookup_path_preserved _ _ _ _ _ Hp Hv). by apply list_at_preserved.
Qed.

Lemma sequence_under_preserved h h' es k xs :
  preserved h h' → sequence_under h es k = Some xs →
  sequence_under h' es k = Some xs.
Proof.
  unfold sequence_under. intros Hp.
  destruct (dict_get k es) as [v|]; [|done]. by apply list_at_preserved.
Qed.

Lemma dict_set_set k v w d : dict_set k v (dict_set k w d) = dict_set k v d.
Proof.
  induction d as [|[k' v'] d IH]; simpl.
  - by rewrite String.eqb_refl.
  - destruct (String.eqb k k') eqn:E; simpl.
    + by rewrite String.eqb_refl.
    + by rewrite E, IH.
Qed.

Lemma output_entries_ref h c es :
  h !! c = Some (ODict es) → es ≠ [] → output_entries h (VRef c) = Some es.
Proof.
  intros Hc Hne. unfold output_entries. simpl. rewrite Hc.
  by destruct es.
Qed.

Lemma dict_set_nonempty k v d : dict_set k v d ≠ [].
Proof. destruct d as [|[k' v'] d]; simpl; [done|]. by destruct (String.eqb k k'). Qed.

Lemma accumulate_plain spec rs : ∀ task_db h entries old,
  get_publish spec = VNone →
  evaluates ev spec →
  output_entries h (output task_db) = Some entries →
  mirror_under h entries (name task_db) = Some old →
  ∃ task_db' h' entries',
    accumulate ev task_db spec rs h = (Return task_db', h') ∧
    name task_db' = name task_db ∧
    output_entries h' (output task_db') = Some entries' ∧
    mirror_under h' entries' (name task_db) = Some (old ++ map error rs) ∧
    (rs ≠ [] → ∃ o, entries' = dict_set "task" (VRef o) entries).
Proof.
  induction rs as [|r rs IH]; intros task_db h entries old Hp Hev Hout Hm.
  - exists task_db, h, entries. by rewrite app_nil_r.
  - destruct (Hev r h) as (pub & h1 & Hrun & Hpres & _).
    destruct (get_output_plain_step task_db spec r h pub h1 entries old)
      as (db1 & c & o & s & tm & h2 & Hget & Hname & Hc & Ho & Hs & Hl);
      eauto using output_entries_preserved, mirror_under_preserved.
    destruct (IH (set_output db1 (VRef c)) h2
                (dict_set "task" (VRef o) entries) (old ++ [error r]))
      as (db' & h' & es' & Hacc & Hname' & Hout' & Hm' & Hes'); try done.
    { apply output_entries_ref; [done|apply dict_set_nonempty]. }
    { unfold mirror_under. rewrite dict_get_set_eq. simpl.
      rewrite Ho, Hname, Hs. simpl. by rewrite Hl. }
    exists db', h', es'. split.
    { simpl. by rewrite (run_bind _ _ _ _ _ Hget). }
    split; [by rewrite Hname'|].
    split; [done|]. split.
    { simpl in Hm'. rewrite Hname in Hm'.
      rewrite Hm'. by rewrite <- app_assoc. }
    intros _. destruct rs as [|r' rs].
    + simpl in Hacc. injection Hacc as <- <-.
      exists o. simpl in Hout'. rewrite (output_entries_ref _ _ _ Hc) in Hout';
        [congruence|apply dict_set_nonempty].
    + destruct Hes' as [o' ->]; [done|]. exists o'. apply dict_set_set.
Qed.

Lemma accumulate_publish spec k rs : ∀ task_db h entries old,
  designated_key h spec = Some k →
  k ≠ "task" →
  evaluates ev spec →
  output_entries h (output task_db) = Some entries →
  sequence_under h entries k = Some old →
  ∃ task_db' h' entries' xs,
    accumulate ev task_db spec rs h = (Return task_db', h') ∧
    name task_db' = name task_db ∧
    output_entries h' (output task_db') = Some entries' ∧
    sequence_under h' entries' k = Some xs ∧
    length xs = length old + length rs ∧
    (rs ≠ [] →
     lookup_path h' (output task_db') [k] ≫= list_at h' = Some xs ∧
     lookup_path h' (output task_db') ["task"; name task_db; k]
       ≫= list_at h' = Some xs).
Proof.
  induction rs as [|r rs IH];
    intros task_db h entries old Hkey Hk Hev Hout Hseq.
  - exists task_db, h, entries, old. simpl. repeat split; try done; lia.
  - destruct (Hev r h) as (pub & h1 & Hrun & Hpres & Hdict).
    destruct Hdict as [proj Hproj]; [by eauto|].
    destruct (get_output_publish_step task_db spec r h pub h1 k proj entries old)
      as (db1 & c & s & o & i & v & h2 & Hget & Hname & Hc & Ho & Hi & Hs & _ & Hfr);
      eauto using output_entries_preserved, sequence_under_preserved,
        designated_key_preserved.
    set (es2 := dict_set "task" (VRef o) (dict_set k (VRef s) entries)) in *.
    assert (Hk2 : dict_get k es2 = Some (VRef s)).
    { unfold es2. rewrite dict_get_set_ne by done. apply dict_get_set_eq. }
    assert (Hout2 : output_entries h2 (VRef c) = Some es2).
    { apply output_entries_ref; [done|apply dict_set_nonempty]. }
    assert (Hseq2 : sequence_under h2 es2 k = Some (old ++ [v])).
    { unfold sequence_under. rewrite Hk2. simpl. by rewrite Hs. }
    destruct (IH (set_output db1 (VRef c)) h2 es2 (old ++ [v]))
      as (db' & h' & es' & xs & Hacc & Hname' & Hout' & Hseq' & Hlen & Hpaths);
      try done.
    { eapply designated_key_frame; [|exact Hfr].
      by eapply designated_key_preserved. }
    exists db', h', es', xs. split.
    { simpl. by rewrite (run_bind _ _ _ _ _ Hget). }
    split; [by rewrite Hname'|]. split; [done|]. split; [done|].
    split; [rewrite Hlen, length_app; simpl; lia|].
    intros _. destruct rs as [|r' rs].
    + simpl in Hacc. injection Hacc as <- <-.
      simpl in Hout'. rewrite Hout2 in Hout'. injection Hout' as <-.
      rewrite Hseq2 in Hseq'. injection Hseq' as <-.
      simpl. rewrite Hc. fold es2. rewrite Hk2. simpl. rewrite Hs.
      split; [done|].
      unfold es2 at 1. rewrite dict_get_set_eq. simpl. rewrite Ho. simpl.
      rewrite String.eqb_refl. simpl. rewrite Hi. simpl.
      rewrite String.eqb_refl. simpl. by rewrite Hs.
    + simpl in Hpaths. rewrite Hname in Hpaths. by apply Hpaths.
Qed.

End GetOutput.

Lemma evaluate_paths_evaluates spec : evaluates evaluate_paths spec.
Proof.
  intros r h. unfold evaluation, preserved.
  assert (∃ ctx hc, py_or (data r) (new (ODict [])) h = (Return ctx, hc)
                    ∧ ∀ l o, h !! l = Some o → hc !! l = Some o)
    as (ctx & hc & Hor & Hpre).
  { rewrite run_py_or. destruct (is_true h (data r)).
    - exists (data r), h. split; [done|]. auto.
    - eexists _, _. split; [done|]. intros l o. apply lookup_app_l_Some. }
  rewrite (run_bind _ _ _ _ _ Hor). unfold evaluate_paths, bind, load.
  destruct (get_publish spec) as [| | | |p] eqn:Hp;
    try (eexists _, _; split; [done|]; split; [done|];
         unfold designated_key; rewrite Hp; by intros [? ?]).
  destruct (hc !! p) as [[xs|es]|] eqn:Hl.
  - eexists _, _. split; [done|]. split; [done|].
    unfold designated_key. rewrite Hp. simpl.
    destruct (h !! p) as [o|] eqn:Hh; [|by intros [? ?]].
    rewrite (Hpre _ _ Hh) in Hl. injection Hl as ->. by intros [? ?].
  - eexists _, _. split; [done|]. split.
    { intros l o Ho. apply lookup_app_l_Some. by apply Hpre. }
    intros _. simpl. rewrite lookup_end. simpl. eauto.
  - eexists _, _. split; [done|]. split; [done|].
    unfold designated_key. rewrite Hp. simpl.
    destruct (h !! p) as [o|] eqn:Hh; [|by intros [? ?]].
    by rewrite (Hpre _ _ Hh) in Hl.
Qed.

(** ** C1 *)

(** C1, as the code has it: with a publish clause whose designated key is
    [k], [get_output] appends [published.get(k) or error], that is the
    projected value when it is present and true, and the error datum of the
    iteration otherwise, to the sequence it mirrors under
    [task[t_name][k]]; that sequence is the one stored under [k] unless
    [k] is ['task']. *)
Theorem get_output_appends_projection_or_error
    ev task_db spec r h pub h1 k g entries old :
  evaluation ev spec r h = (Return pub, h1) →
  designated_key h1 spec = Some k →
  projected h1 pub k = Some g →
  output_entries h1 (output task_db) = Some entries →
  sequence_under h1 entries k = Some old →
  ∃ task_db' out h',
    get_output ev task_db spec r h = (Return (task_db', out), h') ∧
    lookup_path h' out ["task"; name task_db; k] ≫= list_at h'
      = Some (old ++ [chosen h1 g (error r)]) ∧
    (k ≠ "task" →
     lookup_path h' out [k] ≫= list_at h'
       = Some (old ++ [chosen h1 g (error r)])).
Proof.
  intros Hev Hkey Hproj Hout Hseq. unfold projected in Hproj.
  destruct (dict_at h1 pub) as [proj|] eqn:Hpub; [|done].
  destruct (valid h1 (default VNone (dict_get k proj))) eqn:Hval; [|done].
  injection Hproj as <-.
  destruct (get_output_publish_step ev task_db spec r h pub h1 k proj entries old)
    as (db1 & c & s & o & i & v & h2 & Hget & Hname & Hc & Ho & Hi & Hs & Hv & _);
    try done.
  rewrite <- (Hv Hval). exists db1, (VRef c), h2. split; [done|]. split.
  - simpl. rewrite Hc, dict_get_set_eq. simpl. rewrite Ho. simpl.
    rewrite String.eqb_refl. simpl. rewrite Hi. simpl.
    rewrite String.eqb_refl. simpl. by rewrite Hs.
  - intros Hk. simpl. rewrite Hc, dict_get_set_ne, dict_get_set_eq by done.
    simpl. by rewrite Hs.
Qed.

Lemma get_output_appends_projection_or_error_witness :
  ∃ task_db' out h',
    get_output evaluate_paths t1_one publish_result result_b store0
      = (Return (task_db', out), h') ∧
    lookup_path h' out ["task"; "t1"; "result"] ≫= list_at h'
      = Some [VStr "a"; VStr "b"] ∧
    ("result" ≠ "task" →
     lookup_path h' out ["result"] ≫= list_at h' = Some [VStr "a"; VStr "b"]).
Proof.
  apply (get_output_appends_projection_or_error evaluate_paths t1_one
           publish_result result_b store0 (VRef 12)
           (store0 ++ [ODict [("result", VStr "b")]]) "result" (VStr "b")
           [("result", VRef 8); ("task", VRef 9)] [VStr "a"]);
    reflexivity.
Defined.

(** C1 fails as stated: the publish clause projects the result
    [{output: 0}] to [{result: 0}], the key is present, and [get_output]
    records [None] (the error datum of a successful iteration), not [0]. *)
Lemma get_output_drops_false_projection :
  let recorded :=
    run_snapshot
      (p <- get_output evaluate_paths t1_new publish_result result_zero ;;
       ret (snd p)) store0 in
  run_snapshot (evaluation evaluate_paths publish_result result_zero) store0
    = Return (Some (PDict [("result", PInt 0)])) ∧
  recorded
    = Return (Some (PDict [("result", PList [PNone]);
                           ("task", PDict [("t1", PDict [("result", PList [PNone])])])])) ∧
  recorded
    ≠ Return (Some (PDict [("result", PList [PInt 0]);
                           ("task", PDict [("t1", PDict [("result", PList [PInt 0])])])])).
Proof. repeat split; vm_compute; congruence. Qed.

(** ** C8 *)

(** C8, as the code has it: with a publish clause whose designated key
    [k] is not ['task'], the returned task output holds one and the same
    list under [k] and under [task[t_name][k]]. *)
Theorem get_output_mirror_is_primary
    ev task_db spec r h pub h1 k proj entries old :
  evaluation ev spec r h = (Return pub, h1) →
  designated_key h1 spec = Some k →
  dict_at h1 pub = Some proj →
  output_entries h1 (output task_db) = Some entries →
  sequence_under h1 entries k = Some old →
  k ≠ "task" →
  ∃ task_db' out h' s xs,
    get_output ev task_db spec r h = (Return (task_db', out), h') ∧
    lookup_path h' out [k] = Some s ∧
    lookup_path h' out ["task"; name task_db; k] = Some s ∧
    list_at h' s = Some xs.
Proof.
  intros Hev Hkey Hproj Hout Hseq Hk.
  destruct (get_output_publish_step ev task_db spec r h pub h1 k proj entries old)
    as (db1 & c & s & o & i & v & h2 & Hget & Hname & Hc & Ho & Hi & Hs & _ & _);
    try done.
  exists db1, (VRef c), h2, (VRef s), (old ++ [v]). split; [done|].
  simpl. rewrite Hc, dict_get_set_eq. simpl. rewrite Ho. simpl.
  rewrite String.eqb_refl. simpl. rewrite Hi. simpl.
  rewrite String.eqb_refl, Hs.
  by rewrite dict_get_set_ne, dict_get_set_eq.
Qed.

Lemma get_output_mirror_is_primary_witness :
  ∃ task_db' out h' s xs,
    get_output evaluate_paths t1_one publish_result result_b store0
      = (Return (task_db', out), h') ∧
    lookup_path h' out ["result"] = Some s ∧
    lookup_path h' out ["task"; "t1"; "result"] = Some s ∧
    list_at h' s = Some xs.
Proof.
  apply (get_output_mirror_is_primary evaluate_paths t1_one publish_result
           result_b store0 (VRef 12)
           (store0 ++ [ODict [("result", VStr "b")]]) "result"
           [("result", VStr "b")]
           [("result", VRef 8); ("task", VRef 9)] [VStr "a"]);
    try reflexivity.
  by vm_compute.
Defined.

(** C8 fails as stated for the designated key ['task']: the mirror dict
    takes the place of the primary sequence, so what the returned output
    holds under the key is not the sequence mirrored under
    [task[t1]['task']]. *)
Lemma get_output_task_key_has_no_primary :
  let returned (path : list string) :=
    run_snapshot
      (p <- get_output evaluate_paths t1_new publish_task result_a ;;
       fun h' => (match lookup_path h' (snd p) path with
                 | Some v => Return v
                 | None => Raise KeyError
                 end, h')) store0 in
  returned ["task"]
    = Return (Some (PDict [("t1", PDict [("task", PList [PStr "a"])])])) ∧
  returned ["task"; "t1"; "task"] = Return (Some (PList [PStr "a"])) ∧
  returned ["task"] ≠ returned ["task"; "t1"; "task"].
Proof. repeat split; vm_compute; congruence. Qed.

(** ** C10 *)

(** C10: with a publish clause whose designated key is [k], the returned
    task output holds under ['task'] a dict whose only entry is the task
    name, and that entry is a dict whose only entry is [k]. *)
Theorem get_output_replaces_task_mapping
    ev task_db spec r h pub h1 k proj entries old :
  evaluation ev spec r h = (Return pub, h1) →
  designated_key h1 spec = Some k →
  dict_at h1 pub = Some proj →
  output_entries h1 (output task_db) = Some entries →
  sequence_under h1 entries k = Some old →
  ∃ task_db' out h' t inner s,
    get_output ev task_db spec r h = (Return (task_db', out), h') ∧
    lookup_path h' out ["task"] = Some t ∧
    dict_at h' t = Some [(name task_db, inner)] ∧
    dict_at h' inner = Some [(k, s)].
Proof.
  intros Hev Hkey Hproj Hout Hseq.
  destruct (get_output_publish_step ev task_db spec r h pub h1 k proj entries old)
    as (db1 & c & s & o & i & v & h2 & Hget & Hname & Hc & Ho & Hi & Hs & _ & _);
    try done.
  exists db1, (VRef c), h2, (VRef o), (VRef i), (VRef s). split; [done|].
  simpl. by rewrite Hc, dict_get_set_eq, Ho, Hi.
Qed.

Lemma get_output_replaces_task_mapping_witness :
  ∃ task_db' out h' t inner s,
    get_output evaluate_paths t2_one publish_result result_b store0
      = (Return (task_db', out), h') ∧
    lookup_path h' out ["task"] = Some t ∧
    dict_at h' t = Some [("t2", inner)] ∧
    dict_at h' inner = Some [("result", s)].
Proof.
  apply (get_output_replaces_task_mapping evaluate_paths t2_one publish_result
           result_b store0 (VRef 12)
           (store0 ++ [ODict [("result", VStr "b")]]) "result"
           [("result", VStr "b")]
           [("result", VRef 8); ("task", VRef 9)] [VStr "a"]);
    reflexivity.
Defined.

(** ** C7 *)

(** C7: without a publish clause [get_output] appends the error datum of
    the result, which is [None] for a result without error, to the mirror
    sequence [task[t_name]], and the returned task output has the entries
    it had with only the entry ['task'] set, so no primary sequence is
    created; two results in a row, the first without error, leave
    [{task: {t_name: [None, error]}}]. *)
Theorem get_output_without_publish :
  (∀ ev task_db spec r h pub h1 entries old,
     get_publish spec = VNone →
     evaluation ev spec r h = (Return pub, h1) →
     output_entries h1 (output task_db) = Some entries →
     mirror_under h1 entries (name task_db) = Some old →
     ∃ task_db' out h' o,
       get_output ev task_db spec r h = (Return (task_db', out), h') ∧
       dict_at h' out = Some (dict_set "task" (VRef o) entries) ∧
       lookup_path h' out ["task"; name task_db] ≫= list_at h'
         = Some (old ++ [error r])) ∧
  (∀ ev task_db spec r1 r2 h,
     get_publish spec = VNone →
     evaluates ev spec →
     is_true h (output task_db) = false →
     error r1 = VNone →
     ∃ task_db' h' o,
       accumulate ev task_db spec [r1; r2] h = (Return task_db', h') ∧
       dict_at h' (output task_db') = Some [("task", VRef o)] ∧
       lookup_path h' (output task_db') ["task"; name task_db] ≫= list_at h'
         = Some [VNone; error r2]).
Proof.
  split.
  - intros ev task_db spec r h pub h1 entries old Hp Hev Hout Hm.
    destruct (get_output_plain_step ev task_db spec r h pub h1 entries old)
      as (db1 & c & o & s & tm & h2 & Hget & Hname & Hc & Ho & Hs & Hl);
      try done.
    exists db1, (VRef c), h2, o. split; [done|].
    simpl. rewrite Hc. split; [done|].
    rewrite dict_get_set_eq. simpl. rewrite Ho, Hs. simpl. by rewrite Hl.
  - intros ev task_db spec r1 r2 h Hp Hev Hout He.
    destruct (accumulate_plain ev spec [r1; r2] task_db h [] [])
      as (db' & h' & es' & Hacc & Hname & Hout' & Hm & Hes); try done.
    { unfold output_entries. by rewrite Hout. }
    destruct Hes as [o ->]; [done|].
    exists db', h', o. split; [done|].
    unfold output_entries in Hout'.
    destruct (is_true h' (output db')); [|done].
    rewrite Hout'. split; [done|].
    simpl in *. rewrite Hout'. simpl. rewrite He in Hm.
    destruct (dict_at h' (VRef o)) as [d|]; [|done].
    by destruct (dict_get (name task_db) d).
Qed.

Lemma get_output_without_publish_witness :
  (∃ task_db' out h' o,
     get_output evaluate_paths t1_new no_publish result_failed store0
       = (Return (task_db', out), h') ∧
     dict_at h' out = Some [("task", VRef o)] ∧
     lookup_path h' out ["task"; "t1"] ≫= list_at h' = Some [VStr "boom"]) ∧
  (∃ task_db' h' o,
     accumulate evaluate_paths t1_new no_publish [result_a; result_failed] store0
       = (Return task_db', h') ∧
     dict_at h' (output task_db') = Some [("task", VRef o)] ∧
     lookup_path h' (output task_db') ["task"; "t1"] ≫= list_at h'
       = Some [VNone; VStr "boom"]).
Proof.
  split.
  - apply (proj1 get_output_without_publish evaluate_paths t1_new no_publish
             result_failed store0 VNone (store0 ++ [ODict []]) [] []);
      reflexivity.
  - apply (proj2 get_output_without_publish evaluate_paths t1_new no_publish
             result_a result_failed store0);
      try reflexivity.
    apply evaluate_paths_evaluates.
Defined.

(** ** C3 *)

(** C3, as the code has it: [get_output] appends one entry per application
    and never looks at the length [L] of the with-items collections, so
    after [n >= 1] results applied in a row to a task without output every
    tracked sequence (the mirror [task[t_name]] without publish clause;
    the primary under [k] and its mirror with one) has exactly [n] entries. *)
Theorem accumulate_length :
  (∀ ev task_db spec rs h,
     get_publish spec = VNone →
     evaluates ev spec →
     is_true h (output task_db) = false →
     rs ≠ [] →
     ∃ task_db' h' xs,
       accumulate ev task_db spec rs h = (Return task_db', h') ∧
       lookup_path h' (output task_db') ["task"; name task_db] ≫= list_at h'
         = Some xs ∧
       length xs = length rs) ∧
  (∀ ev task_db spec rs h k,
     designated_key h spec = Some k →
     k ≠ "task" →
     evaluates ev spec →
     is_true h (output task_db) = false →
     rs ≠ [] →
     ∃ task_db' h' xs,
       accumulate ev task_db spec rs h = (Return task_db', h') ∧
       lookup_path h' (output task_db') [k] ≫= list_at h' = Some xs ∧
       lookup_path h' (output task_db') ["task"; name task_db; k]
         ≫= list_at h' = Some xs ∧
       length xs = length rs).
Proof.
  split.
  - intros ev task_db spec rs h Hp Hev Hout Hrs.
    destruct (accumulate_plain ev spec rs task_db h [] [])
      as (db' & h' & es' & Hacc & Hname & Hout' & Hm & Hes); try done.
    { unfold output_entries. by rewrite Hout. }
    destruct Hes as [o ->]; [done|].
    exists db', h', (map error rs). split; [done|].
    split; [|by rewrite length_map].
    unfold output_entries in Hout'.
    destruct (is_true h' (output db')); [|done].
    simpl in *. rewrite Hout'. simpl.
    destruct (dict_at h' (VRef o)) as [d|]; [|done].
    by destruct (dict_get (name task_db) d).
  - intros ev task_db spec rs h k Hkey Hk Hev Hout Hrs.
    destruct (accumulate_publish ev spec k rs task_db h [] [])
      as (db' & h' & es' & xs & Hacc & Hname & Hout' & Hseq & Hlen & Hpaths);
      try done.
    { unfold output_entries. by rewrite Hout. }
    destruct (Hpaths Hrs) as [Hprimary Hmirror].
    by exists db', h', xs.
Qed.

Lemma accumulate_length_witness :
  (∃ task_db' h' xs,
     accumulate evaluate_paths t1_new no_publish [result_a; result_failed] store0
       = (Return task_db', h') ∧
     lookup_path h' (output task_db') ["task"; "t1"] ≫= list_at h' = Some xs ∧
     length xs = 2) ∧
  (∃ task_db' h' xs,
     accumulate evaluate_paths t1_new publish_result [result_a; result_b] store0
       = (Return task_db', h') ∧
     lookup_path h' (output task_db') ["result"] ≫= list_at h' = Some xs ∧
     lookup_path h' (output task_db') ["task"; "t1"; "result"] ≫= list_at h'
       = Some xs ∧
     length xs = 2).
Proof.
  split.
  - apply (proj1 accumulate_length evaluate_paths t1_new no_publish
             [result_a; result_failed] store0);
      try reflexivity; [apply evaluate_paths_evaluates | discriminate].
  - apply (proj2 accumulate_length evaluate_paths t1_new publish_result
             [result_a; result_b] store0 "result");
      try reflexivity;
      [by vm_compute | apply evaluate_paths_evaluates | discriminate].
Defined.

(** C3 fails as stated: task [t3] has [L = 1], and the same result applied
    twice leaves a mirror sequence of two entries. *)
Lemma accumulate_duplicate_exceeds_L :
  let lengths :=
    t <- accumulate evaluate_paths t3_new no_publish_z
           (redelivered_twice result_a) ;;
    source <- getitem (input t) "itemZ" ;;
    L <- len source ;;
    mirror <- getitem (output t) "task" ;;
    sequence <- getitem mirror "t3" ;;
    n <- len sequence ;;
    ret (n, L) in
  fst (lengths store1) = Return (2, 1) ∧ ¬ 2 ≤ 1.
Proof. split; [vm_compute; reflexivity | lia]. Qed.

(** ** C2 *)

(** C2 does not hold of the code: [copy.copy] copies only the top-level
    dict, so the append goes to the list the caller's task output still
    holds.  Task [t1] has the output
    [{result: ["a"], task: {t1: {result: ["a"]}}}]; after [get_output] for
    the result ["b"] that same object reads
    [{result: ["a", "b"], task: {t1: {result: ["a", "b"]}}}]. *)
Theorem get_output_mutates_previous_output :
  let before := run_snapshot (ret (output t1_one)) store0 in
  let after :=
    run_snapshot
      (get_output evaluate_paths t1_one publish_result result_b ;;
       ret (output t1_one)) store0 in
  before
    = Return (Some (PDict [("result", PList [PStr "a"]);
                           ("task", PDict [("t1", PDict [("result", PList [PStr "a"])])])])) ∧
  after
    = Return (Some (PDict [("result", PList [PStr "a"; PStr "b"]);
                           ("task", PDict [("t1", PDict [("result", PList [PStr "a"; PStr "b"])])])])) ∧
  before ≠ after.
Proof. repeat split; vm_compute; congruence. Qed.

(** The same for every call that finds a sequence under the designated
    key: the caller's dict is untouched and still refers to the list that
    grew. *)
Lemma get_output_shares_sequence
    ev task_db spec r h pub h1 k proj d entries s old :
  evaluation ev spec r h = (Return pub, h1) →
  designated_key h1 spec = Some k →
  dict_at h1 pub = Some proj →
  output task_db = VRef d →
  h1 !! d = Some (ODict entries) →
  dict_get k entries = Some (VRef s) →
  h1 !! s = Some (OList old) →
  ∃ task_db' out h' v,
    get_output ev task_db spec r h = (Return (task_db', out), h') ∧
    out ≠ VRef d ∧
    h' !! d = Some (ODict entries) ∧
    h' !! s = Some (OList (old ++ [v])).
Proof.
  intros Hev Hkey Hproj Hd Hdl Hk Hs.
  assert (Hout : output_entries h1 (output task_db) = Some entries).
  { rewrite Hd. apply output_entries_ref; [done|].
    by eapply dict_get_nonempty. }
  eexists _, _, _, _. split.
  { by eapply get_output_publish_present. }
  split.
  { intros [= E]. apply lookup_lt_Some in Hdl. lia. }
  split.
  - apply lookup_app_l_Some. eapply lookup_store_ne; [done|]. congruence.
  - apply lookup_app_l_Some. by eapply lookup_store_eq.
Qed.

(** ** C5 *)

(** C5, as the code has it: [is_iteration_incomplete] counts the entries of
    the mirror sequence, [task[t_name][k]] with a designated key [k] and
    [task[t_name]] without publish clause, and returns whether that count
    is below the length [L] of the first with-items source collection. *)
Theorem is_iteration_incomplete_counts_mirror :
  (∀ task_db spec h main_key e rest source xs,
     dict_at h (get_with_items spec) = Some ((main_key, e) :: rest) →
     lookup_path h (input task_db) [main_key] ≫= list_at h = Some source →
     get_publish spec = VNone →
     lookup_path h (output task_db) ["task"; name task_db] ≫= list_at h
       = Some xs →
     is_iteration_incomplete task_db spec h
       = (Return (Nat.ltb (length xs) (length source)), h)) ∧
  (∀ task_db spec h main_key e rest source k xs,
     dict_at h (get_with_items spec) = Some ((main_key, e) :: rest) →
     lookup_path h (input task_db) [main_key] ≫= list_at h = Some source →
     designated_key h spec = Some k →
     lookup_path h (output task_db) ["task"; name task_db; k] ≫= list_at h
       = Some xs →
     is_iteration_incomplete task_db spec h
       = (Return (Nat.ltb (length xs) (length source)), h)).
Proof.
  split.
  - intros task_db spec h main_key e rest source xs Hwi Hsrc Hp Hm.
    apply dict_at_ref in Hwi as (w & Hw & Hwl).
    simpl in Hsrc, Hm.
    destruct (dict_at h (input task_db)) as [di|] eqn:Hdi; [|done].
    destruct (dict_get main_key di) as [sv|] eqn:Hsv; [|done].
    apply dict_at_ref in Hdi as (li & Hi & Hil).
    apply list_at_ref in Hsrc as (ls & -> & Hsl).
    destruct (dict_at h (output task_db)) as [do|] eqn:Hdo; [|done].
    destruct (dict_get "task" do) as [tv|] eqn:Htv; [|done].
    destruct (dict_at h tv) as [dt|] eqn:Hdt; [|done].
    destruct (dict_get (name task_db) dt) as [mv|] eqn:Hmv; [|done].
    apply dict_at_ref in Hdo as (lo & Ho & Hol).
    apply dict_at_ref in Hdt as (lt & -> & Htl).
    apply list_at_ref in Hm as (lm & -> & Hml).
    unfold is_iteration_incomplete. rewrite Hw, Hi, Ho.
    step ltac:(eapply run_keys; hl). cbn [map fst].
    step ltac:(apply run_ret).
    step ltac:(eapply run_getitem; [hl|done]).
    step ltac:(eapply run_len_list; hl).
    step ltac:(by apply run_get_output_key_none). cbn [key_true].
    step ltac:(eapply run_getitem; [hl|done]).
    step ltac:(eapply run_getitem; [hl|done]).
    step ltac:(eapply run_len_list; hl).
    done.
  - intros task_db spec h main_key e rest source k xs Hwi Hsrc Hkey Hm.
    apply dict_at_ref in Hwi as (w & Hw & Hwl).
    simpl in Hsrc, Hm.
    destruct (dict_at h (input task_db)) as [di|] eqn:Hdi; [|done].
    destruct (dict_get main_key di) as [sv|] eqn:Hsv; [|done].
    apply dict_at_ref in Hdi as (li & Hi & Hil).
    apply list_at_ref in Hsrc as (ls & -> & Hsl).
    destruct (dict_at h (output task_db)) as [do|] eqn:Hdo; [|done].
    destruct (dict_get "task" do) as [tv|] eqn:Htv; [|done].
    destruct (dict_at h tv) as [dt|] eqn:Hdt; [|done].
    destruct (dict_get (name task_db) dt) as [nv|] eqn:Hnv; [|done].
    destruct (dict_at h nv) as [dn|] eqn:Hdn; [|done].
    destruct (dict_get k dn) as [mv|] eqn:Hmv; [|done].
    apply dict_at_ref in Hdo as (lo & Ho & Hol).
    apply dict_at_ref in Hdt as (lt & -> & Htl).
    apply dict_at_ref in Hdn as (ln & -> & Hnl).
    apply list_at_ref in Hm as (lm & -> & Hml).
    unfold is_iteration_incomplete. rewrite Hw, Hi, Ho.
    step ltac:(eapply run_keys; hl). cbn [map fst].
    step ltac:(apply run_ret).
    step ltac:(eapply run_getitem; [hl|done]).
    step ltac:(eapply run_len_list; hl).
    step ltac:(eapply run_get_output_key_some, Hkey).
    rewrite (proj2 (run_get_output_key_some _ _ _ Hkey)). cbn [key_str].
    step ltac:(eapply run_getitem; [hl|done]).
    step ltac:(eapply run_getitem; [hl|done]).
    step ltac:(eapply run_getitem; [hl|done]).
    step ltac:(eapply run_len_list; hl).
    done.
Qed.

Lemma is_iteration_incomplete_counts_mirror_witness :
  is_iteration_incomplete t1_plain_one no_publish store_plain
    = (Return true, store_plain) ∧
  is_iteration_incomplete t1_one publish_result store0 = (Return true, store0).
Proof.
  split.
  - apply (proj1 is_iteration_incomplete_counts_mirror t1_plain_one no_publish
             store_plain "itemX" (VRef 5) [("itemY", VRef 6)]
             [VInt 1; VInt 2] [VNone]);
      reflexivity.
  - apply (proj2 is_iteration_incomplete_counts_mirror t1_one publish_result
             store0 "itemX" (VRef 5) [("itemY", VRef 6)]
             [VInt 1; VInt 2] "result" [VStr "a"]);
      reflexivity.
Defined.

(** C5 fails as stated for [L = 0] before any accumulation: there is no
    mirror sequence yet and [is_iteration_incomplete] raises instead of
    returning false. *)
Lemma is_iteration_incomplete_raises_before_first_result :
  is_iteration_incomplete t5_new no_publish_e store_empty
    = (Raise TypeError, store_empty) ∧
  is_iteration_incomplete t5_empty no_publish_e store_empty
    = (Raise KeyError, store_empty) ∧
  is_iteration_incomplete t5_new no_publish_e store_empty
    ≠ (Return false, store_empty).
Proof. repeat split; vm_compute; congruence. Qed.

(** ** C6 *)

Lemma run_isinstance_list v h :
  isinstance_list v h = (Return (is_list h v), h).
Proof.
  unfold isinstance_list, bind, load, is_list, list_at.
  destruct v as [| | | |l]; try done.
  by destruct (h !! l) as [[|]|].
Qed.

Lemma run_list_comp_isinstance vs h :
  list_comp isinstance_list vs h = (Return (map (is_list h) vs), h).
Proof.
  induction vs as [|v vs IH]; [done|]. simpl.
  rewrite (run_bind _ _ _ _ _ (run_isinstance_list _ _)).
  by rewrite (run_bind _ _ _ _ _ IH).
Qed.

Lemma run_len v h :
  is_list h v = true → len v h = (Return (list_length h v), h).
Proof.
  unfold is_list, list_length. intros Hl%bool_decide_eq_true.
  destruct Hl as [xs Hxs]. rewrite Hxs.
  apply list_at_ref in Hxs as (l & -> & Hl). by apply run_len_list.
Qed.

Lemma run_all_gen_len n vs h :
  forallb (is_list h) vs = true →
  all_gen (fun v => m <- len v ;; ret (Nat.eqb m n)) vs h
  = (Return (forallb (fun v => Nat.eqb (list_length h v) n) vs), h).
Proof.
  induction vs as [|v vs IH]; [done|]. simpl.
  intros [Hv Hvs]%andb_true_iff.
  rewrite run_bind_assoc, (run_bind _ _ _ _ _ (run_len _ _ Hv)).
  rewrite (run_bind _ _ _ _ _ (run_ret _ _)).
  destruct (Nat.eqb (list_length h v) n); [by apply IH|done].
Qed.

(** What [validate_input] does on a dict: [IndexError] on the empty one;
    otherwise it returns when every value is a list of the length of the
    first one and raises [InputException] when not.  The store is left as
    it was. *)
Lemma validate_input_dict l d h :
  h !! l = Some (ODict d) →
  validate_input (VRef l) h
  = (match d with
     | [] => Raise IndexError
     | (_, v0) :: _ =>
         if forallb (is_list h) (map snd d)
            && forallb (fun v => Nat.eqb (list_length h v) (list_length h v0))
                 (map snd d)
         then Return tt else Raise InputException
     end, h).
Proof.
  intros Hl. unfold validate_input.
  rewrite (run_bind _ _ _ _ _ (run_values _ _ _ Hl)).
  rewrite (run_bind _ _ _ _ _ (run_list_comp_isinstance _ _)).
  replace (forallb id (map (is_list h) (map snd d)))
    with (forallb (is_list h) (map snd d))
    by (induction (map snd d) as [|? ? IH]; simpl; by rewrite ?IH).
  destruct d as [|[k0 v0] d]; [done|].
  destruct (forallb (is_list h) (map snd ((k0, v0) :: d))) eqn:Hall; [|done].
  cbn [negb andb]. cbn [map snd first].
  rewrite (run_bind _ _ _ _ _ (run_ret _ _)).
  assert (Hv0 : is_list h v0 = true) by (simpl in Hall; by destruct (is_list h v0)).
  rewrite (run_bind _ _ _ _ _ (run_len _ _ Hv0)).
  rewrite (run_bind _ _ _ _ _ (run_all_gen_len _ _ _ Hall)).
  cbn [map snd].
  by destruct (forallb (fun v => Nat.eqb _ _) _).
Qed.

(** C6 does not hold of the code for the empty mapping: [values[0]] on the
    empty list of values raises [IndexError], which is neither a normal
    return nor an [InputException]. *)
Theorem validate_input_empty_mapping l h :
  h !! l = Some (ODict []) →
  validate_input (VRef l) h = (Raise IndexError, h).
Proof. intros Hl. by rewrite (validate_input_dict _ _ _ Hl). Qed.

Lemma validate_input_empty_mapping_witness :
  validate_input (VRef 2) store_empty = (Raise IndexError, store_empty).
Proof. apply (validate_input_empty_mapping 2 store_empty). reflexivity. Defined.

(** ** C4 *)

Lemma shape_length h ms tail :
  length (shape h ms tail) = length h + S (length ms + length tail).
Proof. unfold shape. rewrite length_app. simpl. by rewrite length_app, length_map. Qed.

Lemma shape_coll h ms tail :
  shape h ms tail !! length h
  = Some (OList (map VRef (seq (S (length h)) (length ms)))).
Proof. unfold shape. by rewrite lookup_end. Qed.

Lemma shape_row h ms tail i m :
  ms !! i = Some m → shape h ms tail !! (S (length h) + i) = Some (ODict m).
Proof.
  intros Hm. unfold shape.
  replace (S (length h) + i) with (length h + S i) by lia.
  rewrite lookup_plus. simpl. apply lookup_app_l_Some.
  by rewrite list_lookup_fmap, Hm.
Qed.

Lemma shape_old h ms tail l o :
  h !! l = Some o → shape h ms tail !! l = Some o.
Proof. apply lookup_app_l_Some. Qed.

Lemma shape_alloc h ms tail o :
  shape h ms tail ++ [o] = shape h ms (tail ++ [o]).
Proof. unfold shape. by rewrite <- !app_assoc, <- app_comm_cons, <- app_assoc. Qed.

Lemma shape_append h ms m :
  <[length h := OList (map VRef (seq (S (length h)) (length ms))
                        ++ [VRef (length (shape h ms []))])]>
    (shape h ms [ODict m])
  = shape h (ms ++ [m]) [].
Proof.
  unfold shape at 2 3. rewrite insert_end. simpl. f_equal. f_equal.
  - rewrite shape_length, length_app. simpl.
    rewrite seq_app, map_app. simpl. do 4 f_equal. lia.
  - by rewrite map_app, app_nil_r.
Qed.

Lemma shape_update h ms1 m ms2 tail m' :
  <[S (length h) + length ms1 := ODict m']> (shape h (ms1 ++ m :: ms2) tail)
  = shape h (ms1 ++ m' :: ms2) tail.
Proof.
  unfold shape.
  replace (S (length h) + length ms1) with (length h + S (length ms1)) by lia.
  rewrite insert_plus. simpl. f_equal. f_equal.
  - by rewrite !length_app.
  - rewrite !map_app. simpl. rewrite <- !app_assoc. simpl.
    rewrite <- (length_map ODict ms1).
    by rewrite <- (Nat.add_0_r (length (map ODict ms1))), insert_app_r.
Qed.

Lemma inner_loop_first h key xs : ∀ ms,
  for_each (combine (seq (length ms) (length xs)) xs)
    (inner_body (VRef (length h)) key) (shape h ms [])
  = (Return tt, shape h (ms ++ map (fun x => [(key, x)]) xs) []).
Proof.
  induction xs as [|x xs IH]; intros ms.
  - simpl. by rewrite app_nil_r.
  - simpl. unfold inner_body at 1. cbn [fst snd].
    rewrite run_bind_assoc.
    rewrite (run_bind _ _ _ _ _ (run_new _ _)), shape_alloc. simpl app.
    rewrite run_bind_assoc.
    rewrite (run_bind _ _ _ _ _ (run_len_list _ _ _ (shape_coll _ _ _))).
    rewrite length_map, length_seq, Nat.leb_refl.
    rewrite (run_bind _ _ _ _ _ (run_append _ _ _ _ (shape_coll _ _ _))).
    rewrite shape_append.
    replace (S (length ms)) with (length (ms ++ [[(key, x)]]))
      by (rewrite length_app; simpl; lia).
    rewrite IH. by rewrite <- app_assoc.
Qed.

Lemma inner_loop_next h key xs : ∀ ms1 ms2 tail,
  length xs ≤ length ms2 →
  ∃ tail',
    for_each (combine (seq (length ms1) (length xs)) xs)
      (inner_body (VRef (length h)) key) (shape h (ms1 ++ ms2) tail)
    = (Return tt, shape h (ms1 ++ bind_items key xs ms2) tail').
Proof.
  induction xs as [|x xs IH]; intros ms1 ms2 tail Hlen.
  - exists tail. by destruct ms2.
  - destruct ms2 as [|m ms2]; [simpl in Hlen; lia|].
    simpl in Hlen.
    destruct (IH (ms1 ++ [dict_set key x m]) ms2 (tail ++ [ODict [(key, x)]]))
      as [tail' Hrun]; [lia|].
    exists tail'. simpl. unfold inner_body at 1. cbn [fst snd].
    rewrite run_bind_assoc.
    rewrite (run_bind _ _ _ _ _ (run_new _ _)), shape_alloc.
    rewrite run_bind_assoc.
    rewrite (run_bind _ _ _ _ _ (run_len_list _ _ _ (shape_coll _ _ _))).
    rewrite length_map, length_seq.
    replace (Nat.leb (length (ms1 ++ m :: ms2)) (length ms1)) with false
      by (symmetry; apply Nat.leb_gt; rewrite length_app; simpl; lia).
    rewrite run_bind_assoc. erewrite run_bind; cycle 1.
    { eapply run_getitem_index; [apply shape_coll|].
      rewrite list_lookup_fmap, lookup_seq_lt
        by (rewrite length_app; simpl; lia).
      done. }
    erewrite run_bind; cycle 1.
    { eapply run_update.
      - apply shape_row. by rewrite lookup_app_r, Nat.sub_diag by lia.
      - rewrite shape_length.
        replace (length h + S (length (ms1 ++ m :: ms2) + length tail))
          with (length (shape h (ms1 ++ m :: ms2) tail))
          by apply shape_length.
        rewrite <- shape_alloc. apply lookup_new. }
    cbn [dict_update fold_left fst snd].
    rewrite shape_update.
    replace (S (length ms1)) with (length (ms1 ++ [dict_set key x m]))
      by (rewrite length_app; simpl; lia).
    by rewrite <- !(app_assoc ms1 [_]) in Hrun.
Qed.

Lemma bind_items_length key xs : ∀ ms,
  length (bind_items key xs ms) = length ms.
Proof.
  induction xs as [|x xs IH]; intros [|m ms]; simpl; try done.
  by rewrite IH.
Qed.

Lemma bind_items_lookup key xs : ∀ ms i x m,
  xs !! i = Some x → ms !! i = Some m →
  bind_items key xs ms !! i = Some (dict_set key x m).
Proof.
  induction xs as [|x0 xs IH]; intros [|m0 ms] [|i] x m; simpl; try done.
  - by intros [= ->] [= ->].
  - apply IH.
Qed.

Lemma outer_loop_next h L : ∀ (rest : dict) ms tail,
  lists_of_length h L rest →
  length ms = L →
  ∃ tail',
    for_each rest (outer_body (VRef (length h))) (shape h ms tail)
    = (Return tt, shape h (fold_left (bind_source h) rest ms) tail').
Proof.
  induction rest as [|[k v] rest IH]; intros ms tail Hall Hms.
  - by exists tail.
  - apply Forall_cons in Hall as [(xs & Hxs & Hlen) Hall]. simpl in Hxs.
    destruct (inner_loop_next h k xs [] ms tail) as [tail1 Hinner]; [lia|].
    destruct (IH (bind_items k xs ms) tail1 Hall) as [tail' Hrest].
    { by rewrite bind_items_length. }
    exists tail'. simpl. unfold outer_body at 1. cbn [fst snd].
    apply list_at_ref in Hxs as (s & -> & Hs).
    rewrite run_bind_assoc.
    rewrite (run_bind _ _ _ _ _
               (run_iter_list _ _ _ (shape_old _ _ _ _ _ Hs))).
    unfold enumerate. simpl in Hinner.
    rewrite (run_bind _ _ _ _ _ Hinner).
    unfold bind_source at 2, items_of. simpl. by rewrite Hs.
Qed.

Lemma dict_get_elem k v (d : dict) : dict_get k d = Some v → (k, v) ∈ d.
Proof.
  induction d as [|[k' v'] d IH]; simpl; [done|].
  destruct (String.eqb k k') eqn:E.
  - apply String.eqb_eq in E as ->. intros [= ->]. apply list_elem_of_here.
  - intros H. apply list_elem_of_further. by apply IH.
Qed.

Lemma fold_rows h L : ∀ (rest : dict) ms i m,
  lists_of_length h L rest →
  NoDup (map fst rest) →
  i < L →
  ms !! i = Some m →
  ∃ m',
    fold_left (bind_source h) rest ms !! i = Some m' ∧
    (∀ k, k ∉ map fst rest → dict_get k m' = dict_get k m) ∧
    (∀ k v, (k, v) ∈ rest → dict_get k m' = items_of h v !! i).
Proof.
  induction rest as [|[k1 v1] rest IH]; intros ms i m Hall Hnd Hi Hm.
  - exists m. split; [done|]. split; [done|]. intros k v Hin.
    by apply elem_of_nil in Hin.
  - apply Forall_cons in Hall as [(xs & Hxs & Hlen) Hall]. simpl in Hxs.
    simpl in Hnd. apply NoDup_cons in Hnd as [Hk1 Hnd].
    destruct (lookup_lt_is_Some_2 xs i) as [x Hx]; [lia|].
    destruct (IH (bind_source h ms (k1, v1)) i (dict_set k1 x m))
      as (m' & Hm' & Hother & Hrest); try done.
    { unfold bind_source, items_of. simpl. rewrite Hxs. simpl.
      by apply bind_items_lookup. }
    exists m'. split; [done|]. split.
    + intros k Hk. simpl in Hk. apply not_elem_of_cons in Hk as [Hne Hk].
      rewrite (Hother _ Hk). by apply dict_get_set_ne.
    + intros k v [[= -> ->]|Hin]%elem_of_cons.
      * rewrite (Hother _ Hk1), dict_get_set_eq.
        unfold items_of. by rewrite Hxs.
      * by apply Hrest.
Qed.

Lemma fold_rows_length h (rest : dict) : ∀ ms,
  length (fold_left (bind_source h) rest ms) = length ms.
Proof.
  induction rest as [|kv rest IH]; intros ms; [done|].
  simpl. rewrite IH. unfold bind_source. apply bind_items_length.
Qed.

Lemma lists_of_length_valid h L (d : dict) n :
  lists_of_length h L d → n = L →
  forallb (is_list h) (map snd d)
  && forallb (fun v => Nat.eqb (list_length h v) n) (map snd d) = true.
Proof.
  intros Hall ->. induction Hall as [|[k v] d (xs & Hxs & Hlen) _ IH];
    [done|].
  simpl in *. apply andb_true_iff in IH as [-> ->].
  unfold is_list, list_length. rewrite Hxs. simpl.
  by rewrite Hlen, Nat.eqb_refl.
Qed.

Lemma calc_input_loops l (d : dict) h :
  h !! l = Some (ODict d) →
  validate_input (VRef l) h = (Return tt, h) →
  calc_input (VRef l) h
  = match for_each d (outer_body (VRef (length h))) (shape h [] []) with
    | (Return _, h') => (Return (VRef (length h)), h')
    | (Raise e, h') => (Raise e, h')
    end.
Proof.
  intros Hl Hval. unfold calc_input.
  rewrite (run_bind _ _ _ _ _ Hval).
  rewrite (run_bind _ _ _ _ _ (run_new _ _)).
  rewrite (run_bind _ _ _ _ _
             (run_items _ _ _ (lookup_app_l_Some _ _ _ _ Hl))).
  unfold bind at 1. by destruct (for_each d _ _) as [[?|?] ?].
Qed.

(** C4: for a non-empty mapping from variable names to lists of one length
    [L], [calc_input] returns a list of [L] dicts, and the [i]-th dict
    binds every variable name to the [i]-th item of its list. *)
Theorem calc_input_index_correspondence h l (d : dict) L :
  h !! l = Some (ODict d) →
  d ≠ [] →
  NoDup (map fst d) →
  lists_of_length h L d →
  ∃ c h' rows,
    calc_input (VRef l) h = (Return c, h') ∧
    list_at h' c = Some rows ∧
    length rows = L ∧
    ∀ i k v x,
      i < L → dict_get k d = Some v → items_of h v !! i = Some x →
      ∃ row m,
        rows !! i = Some row ∧ dict_at h' row = Some m ∧
        dict_get k m = Some x.
Proof.
  intros Hl Hne Hnd Hall.
  destruct d as [|[k0 v0] rest]; [done|].
  pose proof Hall as Hall'.
  apply Forall_cons in Hall' as [(xs0 & Hxs0 & Hlen0) Hrest]. simpl in Hxs0.
  assert (Hval : validate_input (VRef l) h = (Return tt, h)).
  { rewrite (validate_input_dict _ _ _ Hl).
    rewrite (lists_of_length_valid h L _ _ Hall); [done|].
    unfold list_length. by rewrite Hxs0. }
  rewrite (calc_input_loops _ _ _ Hl Hval).
  set (ms0 := map (fun x => [(k0, x)]) xs0).
  destruct (outer_loop_next h L rest ms0 [] Hrest) as [tail' Hloop].
  { unfold ms0. by rewrite length_map. }
  assert (Hrun : for_each ((k0, v0) :: rest) (outer_body (VRef (length h)))
                   (shape h [] [])
                 = (Return tt, shape h (fold_left (bind_source h) rest ms0) tail')).
  { simpl. unfold outer_body at 1. cbn [fst snd].
    apply list_at_ref in Hxs0 as (s0 & -> & Hs0).
    rewrite run_bind_assoc.
    rewrite (run_bind _ _ _ _ _
               (run_iter_list _ _ _ (shape_old _ _ _ _ _ Hs0))).
    unfold enumerate.
    rewrite (run_bind _ _ _ _ _ (inner_loop_first h k0 xs0 [])).
    exact Hloop. }
  rewrite Hrun.
  set (ms := fold_left (bind_source h) rest ms0) in *.
  assert (Hms : length ms = L).
  { unfold ms, ms0. by rewrite fold_rows_length, length_map. }
  eexists _, _, _. split; [done|]. simpl. rewrite shape_coll.
  split; [done|]. split; [by rewrite length_map, length_seq|].
  intros i k v x Hi Hk Hx.
  simpl in Hnd. apply NoDup_cons in Hnd as [Hk0 Hnd].
  destruct (lookup_lt_is_Some_2 xs0 i) as [x0 Hx0]; [lia|].
  destruct (fold_rows h L rest ms0 i [(k0, x0)] Hrest Hnd Hi)
    as (m & Hm & Hother & Hin).
  { unfold ms0. by rewrite list_lookup_fmap, Hx0. }
  exists (VRef (S (length h) + i)), m. split.
  { rewrite list_lookup_fmap, lookup_seq_lt by lia. done. }
  split.
  { unfold dict_at. fold ms in Hm. by rewrite (shape_row _ _ _ _ _ Hm). }
  simpl in Hk. destruct (String.eqb k k0) eqn:E.
  - apply String.eqb_eq in E as ->. injection Hk as <-.
    rewrite (Hother _ Hk0). simpl. rewrite String.eqb_refl.
    unfold items_of in Hx. rewrite Hxs0 in Hx. simpl in Hx. congruence.
  - rewrite (Hin k v); [done|]. by apply dict_get_elem.
Qed.

Lemma calc_input_index_correspondence_witness :
  ∃ c h' rows,
    calc_input (VRef 4) store0 = (Return c, h') ∧
    list_at h' c = Some rows ∧
    length rows = 2 ∧
    ∀ i k v x,
      i < 2 →
      dict_get k [("itemX", VRef 5); ("itemY", VRef 6)] = Some v →
      items_of store0 v !! i = Some x →
      ∃ row m,
        rows !! i = Some row ∧ dict_at h' row = Some m ∧
        dict_get k m = Some x.
Proof.
  apply (calc_input_index_correspondence store0 4
           [("itemX", VRef 5); ("itemY", VRef 6)] 2).
  - reflexivity.
  - discriminate.
  - simpl. apply NoDup_cons_2; [|apply NoDup_singleton].
    rewrite list_elem_of_singleton. discriminate.
  - repeat constructor; eexists; split; reflexivity.
Defined.

(** The example of section 8:
    [{itemX: [1, 2], itemY: ["a", "b"]}] gives
    [[{itemX: 1, itemY: "a"}, {itemX: 2, itemY: "b"}]]. *)
Example calc_input_example :
  run_snapshot (calc_input (VRef 4)) store0
  = Return (Some (PList [PDict [("itemX", PInt 1); ("itemY", PStr "a")];
                         PDict [("itemX", PInt 2); ("itemY", PStr "b")]])).
Proof. vm_compute. reflexivity. Qed.

(** ** C9 *)

(** C9: [run_action] returns what the executor's [run_action] returns
    for the same action execution id, class, attributes, params and
    safe_rerun flag, with the redelivered flag of the RPC context when
    it is set and [False] when it is not. *)
Theorem run_action_passes_request_on
    {ActionExId ActionCls ActionAttrs Params Result World : Type}
    (LOG_info : ActionExId → ActionCls → ActionAttrs → Params → World → World)
    (self : ExecutorServer ActionExId ActionCls ActionAttrs Params Result World)
    (rpc_ctx : RpcContext) action_ex_id action_cls_str action_cls_attrs
    params safe_rerun w :
  run_action LOG_info self rpc_ctx action_ex_id action_cls_str
    action_cls_attrs params safe_rerun w
  = executor_run_action (Executor := executor self)
      action_ex_id action_cls_str action_cls_attrs params safe_rerun
      (default false (redelivered rpc_ctx))
      (LOG_info action_ex_id action_cls_str action_cls_attrs params w).
Proof. unfold run_action. by destruct (redelivered rpc_ctx) as [[|]|]. Qed.

(** * Further properties of the code *)

(** ** [get_output]: what it changes and what it leaves alone *)

Lemma output_entries_true h out entries k v :
  output_entries h out = Some entries → dict_get k entries = Some v →
  is_true h out = true.
Proof.
  intros Hout Hk.
  destruct (output_entries_present _ _ _ _ _ Hout Hk) as (d & -> & Hd).
  simpl. rewrite Hd. by destruct entries.
Qed.

Lemma get_output_publish_full ev task_db spec r h pub h1 k proj entries old :
  evaluation ev spec r h = (Return pub, h1) →
  designated_key h1 spec = Some k →
  dict_at h1 pub = Some proj →
  output_entries h1 (output task_db) = Some entries →
  sequence_under h1 entries k = Some old →
  ∃ c s o i v h',
    get_output ev task_db spec r h
      = (Return (refilled h1 task_db, VRef c), h') ∧
    length h1 ≤ c ∧
    h' !! c = Some (ODict (dict_set "task" (VRef o) (dict_set k (VRef s) entries))) ∧
    h' !! o = Some (ODict [(name task_db, VRef i)]) ∧
    h' !! i = Some (ODict [(k, VRef s)]) ∧
    h' !! s = Some (OList (old ++ [v])) ∧
    (∀ l ob, h1 !! l = Some ob → dict_get k entries ≠ Some (VRef l) →
             h' !! l = Some ob) ∧
    (is_true h1 (output task_db) = false →
     h' !! length h1 = Some (ODict []) ∧ c ≠ length h1).
Proof.
  intros Hev Hkey Hproj Hout Hseq. unfold sequence_under in Hseq.
  destruct (dict_get k entries) as [sv|] eqn:Hk.
  - apply list_at_ref in Hseq as (s & -> & Hs).
    pose proof (output_entries_true _ _ _ _ _ Hout Hk) as Ht.
    eexists _, s, _, _, _, _. split.
    { unfold refilled. rewrite Ht. by eapply get_output_publish_present. }
    rewrite (dict_set_id _ _ _ Hk).
    set (v := chosen (h1 ++ [ODict entries])
                (default VNone (dict_get k proj)) (error r)).
    assert (Hlen : length h1 = length (<[s:=OList (old ++ [v])]> h1))
      by (by rewrite length_insert).
    split; [done|]. split; [by rewrite Hlen, lookup_end|].
    split; [by rewrite Hlen, lookup_plus|].
    split; [by rewrite Hlen, lookup_plus|].
    split; [apply lookup_app_l_Some; by eapply lookup_store_eq|].
    split.
    + intros l ob Hl Hne. apply lookup_app_l_Some.
      eapply lookup_store_ne; [done|]. congruence.
    + by rewrite Ht.
  - injection Hseq as <-.
    eexists _, _, _, _, _, _. split.
    { by eapply get_output_publish_absent. }
    split; [lia|].
    split; [by rewrite lookup_end2|].
    split; [by rewrite lookup_plus2|].
    split; [by rewrite lookup_plus2|].
    split; [by rewrite lookup_plus2|].
    split.
    + intros l ob Hl _. by apply lookup_app_l_Some.
    + intros Ht. unfold refill. rewrite Ht. simpl.
      split; [by rewrite lookup_end|lia].
Qed.

Lemma get_output_plain_full ev task_db spec r h pub h1 entries old :
  get_publish spec = VNone →
  evaluation ev spec r h = (Return pub, h1) →
  output_entries h1 (output task_db) = Some entries →
  mirror_under h1 entries (name task_db) = Some old →
  ∃ c o s tm h',
    get_output ev task_db spec r h
      = (Return (refilled h1 task_db, VRef c), h') ∧
    length h1 ≤ c ∧
    h' !! c = Some (ODict (dict_set "task" (VRef o) entries)) ∧
    h' !! o = Some (ODict tm) ∧
    dict_get (name task_db) tm = Some (VRef s) ∧
    h' !! s = Some (OList (old ++ [error r])) ∧
    (∀ l ob, h1 !! l = Some ob →
             (t ← dict_get "task" entries; lookup_path h1 t [name task_db])
               ≠ Some (VRef l) →
             h' !! l = Some ob) ∧
    (is_true h1 (output task_db) = false →
     h' !! length h1 = Some (ODict []) ∧ c ≠ length h1).
Proof.
  intros Hp Hev Hout Hm. unfold mirror_under in Hm.
  destruct (dict_get "task" entries) as [tv|] eqn:Ht.
  - simpl in Hm.
    destruct (dict_at h1 tv) as [tm|] eqn:Htm; [|done].
    destruct (dict_get (name task_db) tm) as [sv|] eqn:Hn; [|done].
    apply dict_at_ref in Htm as (o & -> & Ho).
    apply list_at_ref in Hm as (s & -> & Hs).
    pose proof (output_entries_true _ _ _ _ _ Hout Ht) as Htr.
    eexists _, o, s, tm, _. split.
    { unfold refilled. rewrite Htr. by eapply get_output_plain_present. }
    rewrite (dict_set_id _ _ _ Ht).
    assert (Hlen : length h1 = length (<[s:=OList (old ++ [error r])]> h1))
      by (by rewrite length_insert).
    split; [done|]. split; [by rewrite Hlen, lookup_end|].
    split.
    { apply lookup_app_l_Some. eapply lookup_store_ne; [done|]. congruence. }
    split; [done|].
    split; [apply lookup_app_l_Some; by eapply lookup_store_eq|].
    split.
    + intros l ob Hl Hne. apply lookup_app_l_Some.
      eapply lookup_store_ne; [done|]. intros <-. apply Hne.
      simpl. by rewrite Ho, Hn.
    + by rewrite Htr.
  - injection Hm as <-.
    eexists _, _, _, _, _. split.
    { by eapply get_output_plain_absent. }
    split; [lia|].
    split; [by rewrite lookup_end2|].
    split; [by rewrite lookup_plus2|].
    split; [simpl; by rewrite String.eqb_refl|].
    split; [by rewrite lookup_plus2|].
    split.
    + intros l ob Hl _. by apply lookup_app_l_Some.
    + intros Htr. unfold refill. rewrite Htr. simpl.
      split; [by rewrite lookup_end|lia].
Qed.

Lemma refilled_name h task_db : name (refilled h task_db) = name task_db.
Proof. unfold refilled. by destruct (is_true _ _). Qed.

Lemma refilled_input h task_db : input (refilled h task_db) = input task_db.
Proof. unfold refilled. by destruct (is_true _ _). Qed.

Lemma valid_fresh (h : heap) c : length h ≤ c → valid h (VRef c) = false.
Proof. intros Hc. simpl. apply Nat.ltb_ge. lia. Qed.





(** X3: [get_output] assigns to [task_db.output] only when it is false
    ([None] or empty): it then holds a new dict that stays empty and is
    not the returned dict, so the result reaches the task only when the
    caller stores it.  Name and input of the task are never touched. *)
Theorem get_output_refills_empty_output :
  (∀ ev task_db spec r h pub h1 k proj entries old,
     evaluation ev spec r h = (Return pub, h1) →
     designated_key h1 spec = Some k →
     dict_at h1 pub = Some proj →
     output_entries h1 (output task_db) = Some entries →
     sequence_under h1 entries k = Some old →
     ∃ task_db' out h',
       get_output ev task_db spec r h = (Return (task_db', out), h') ∧
       name task_db' = name task_db ∧ input task_db' = input task_db ∧
       (is_true h1 (output task_db) = true → task_db' = task_db) ∧
       (is_true h1 (output task_db) = false →
        out ≠ output task_db' ∧ valid h1 (output task_db') = false ∧
        dict_at h' (output task_db') = Some [])) ∧
  (∀ ev task_db spec r h pub h1 entries old,
     get_publish spec = VNone →
     evaluation ev spec r h = (Return pub, h1) →
     output_entries h1 (output task_db) = Some entries →
     mirror_under h1 entries (name task_db) = Some old →
     ∃ task_db' out h',
       get_output ev task_db spec r h = (Return (task_db', out), h') ∧
       name task_db' = name task_db ∧ input task_db' = input task_db ∧
       (is_true h1 (output task_db) = true → task_db' = task_db) ∧
       (is_true h1 (output task_db) = false →
        out ≠ output task_db' ∧ valid h1 (output task_db') = false ∧
        dict_at h' (output task_db') = Some [])).
Proof.
  split.
  - intros ev task_db spec r h pub h1 k proj entries old Hev Hkey Hproj Hout Hseq.
    destruct (get_output_publish_full ev task_db spec r h pub h1 k proj entries old)
      as (c & s & o & i & v & h' & Hget & Hc & _ & _ & _ & _ & _ & Hre);
      try done.
    exists (refilled h1 task_db), (VRef c), h'. split; [done|].
    split; [apply refilled_name|]. split; [apply refilled_input|].
    unfold refilled. split; intros Ht; rewrite Ht; [done|].
    destruct (Hre Ht) as [Hd Hne]. simpl. rewrite Hd.
    repeat split; [congruence|]. apply Nat.ltb_irrefl.
  - intros ev task_db spec r h pub h1 entries old Hp Hev Hout Hm.
    destruct (get_output_plain_full ev task_db spec r h pub h1 entries old)
      as (c & o & s & tm & h' & Hget & Hc & _ & _ & _ & _ & _ & Hre);
      try done.
    exists (refilled h1 task_db), (VRef c), h'. split; [done|].
    split; [apply refilled_name|]. split; [apply refilled_input|].
    unfold refilled. split; intros Ht; rewrite Ht; [done|].
    destruct (Hre Ht) as [Hd Hne]. simpl. rewrite Hd.
    repeat split; [congruence|]. apply Nat.ltb_irrefl.
Qed.

Lemma get_output_refills_empty_output_witness :
  (∃ task_db' out h',
     get_output evaluate_paths t1_new publish_result result_a store0
       = (Return (task_db', out), h') ∧
     name task_db' = "t1" ∧ input task_db' = VRef 4 ∧
     (is_true (store0 ++ [ODict [("result", VStr "a")]]) VNone = true →
      task_db' = t1_new) ∧
     (is_true (store0 ++ [ODict [("result", VStr "a")]]) VNone = false →
      out ≠ output task_db' ∧
      valid (store0 ++ [ODict [("result", VStr "a")]]) (output task_db') = false ∧
      dict_at h' (output task_db') = Some [])) ∧
  (∃ task_db' out h',
     get_output evaluate_paths t1_plain_one no_publish result_failed store_plain
       = (Return (task_db', out), h') ∧
     name task_db' = "t1" ∧ input task_db' = VRef 4 ∧
     (is_true (store_plain ++ [ODict []]) (VRef 12) = true →
      task_db' = t1_plain_one) ∧
     (is_true (store_plain ++ [ODict []]) (VRef 12) = false →
      out ≠ output task_db' ∧
      valid (store_plain ++ [ODict []]) (output task_db') = false ∧
      dict_at h' (output task_db') = Some [])).
Proof.
  split.
  - apply (proj1 get_output_refills_empty_output evaluate_paths t1_new
             publish_result result_a store0 (VRef 12)
             (store0 ++ [ODict [("result", VStr "a")]]) "result"
             [("result", VStr "a")] [] []);
      reflexivity.
  - apply (proj2 get_output_refills_empty_output evaluate_paths t1_plain_one
             no_publish result_failed store_plain VNone
             (store_plain ++ [ODict []]) [("task", VRef 13)] [VNone]);
      reflexivity.
Defined.

(** X4: with a publish clause whose designated key is [k], the returned
    task output keeps every entry of the previous output other than [k]
    and ['task']. *)
Theorem get_output_keeps_other_entries
    ev task_db spec r h pub h1 k proj entries old :
  evaluation ev spec r h = (Return pub, h1) →
  designated_key h1 spec = Some k →
  dict_at h1 pub = Some proj →
  output_entries h1 (output task_db) = Some entries →
  sequence_under h1 entries k = Some old →
  ∃ task_db' out h' es,
    get_output ev task_db spec r h = (Return (task_db', out), h') ∧
    dict_at h' out = Some es ∧
    ∀ k', k' ≠ k → k' ≠ "task" → dict_get k' es = dict_get k' entries.
Proof.
  intros Hev Hkey Hproj Hout Hseq.
  destruct (get_output_publish_full ev task_db spec r h pub h1 k proj entries old)
    as (c & s & o & i & v & h' & Hget & _ & Hc & _); try done.
  eexists _, (VRef c), h', _. split; [done|]. simpl. rewrite Hc.
  split; [done|]. intros k' Hk Ht.
  by rewrite !dict_get_set_ne.
Qed.

Lemma get_output_keeps_other_entries_witness :
  ∃ task_db' out h' es,
    get_output evaluate_paths t1_kept publish_result result_b store_kept
      = (Return (task_db', out), h') ∧
    dict_at h' out = Some es ∧
    ∀ k', k' ≠ "result" → k' ≠ "task" →
          dict_get k' es
          = dict_get k' [("kept", VInt 5); ("result", VRef 8); ("task", VRef 9)].
Proof.
  apply (get_output_keeps_other_entries evaluate_paths t1_kept publish_result
           result_b store_kept (VRef 13)
           (store_kept ++ [ODict [("result", VStr "b")]]) "result"
           [("result", VStr "b")]
           [("kept", VInt 5); ("result", VRef 8); ("task", VRef 9)]
           [VStr "a"]);
    reflexivity.
Defined.

(** ** [get_output]: when it raises *)

Lemma run_bind_raise {A B} (m : M A) (f : A → M B) h e h' :
  m h = (Raise e, h') → bind m f h = (Raise e, h').
Proof. unfold bind. by intros ->. Qed.

Lemma run_getitem_missing k l d h :
  h !! l = Some (ODict d) → dict_get k d = None →
  getitem (VRef l) k h = (Raise KeyError, h).
Proof. intros H Hk. unfold getitem, bind, load. by rewrite H, Hk. Qed.

Lemma run_append_not_list v x h :
  list_at h v = None → append v x h = (Raise AttributeError, h).
Proof.
  unfold append, bind, load, list_at.
  destruct v as [| | | |l]; try done.
  by destruct (h !! l) as [[|]|].
Qed.

(** X5: without publish clause, when the task output has a ['task']
    mapping that lacks this task's name (another task left it),
    [get_output] raises [KeyError]; no existing object has changed. *)
Theorem get_output_plain_other_task ev task_db spec r h pub h1 entries o tm :
  get_publish spec = VNone →
  evaluation ev spec r h = (Return pub, h1) →
  output_entries h1 (output task_db) = Some entries →
  dict_get "task" entries = Some (VRef o) →
  h1 !! o = Some (ODict tm) →
  dict_get (name task_db) tm = None →
  ∃ h',
    get_output ev task_db spec r h = (Raise KeyError, h') ∧
    ∀ l ob, h1 !! l = Some ob → h' !! l = Some ob.
Proof.
  intros Hp Hev Hout Ht Ho Htm.
  apply run_bind_inv in Hev as (ctx & hc & Hor & Hev).
  destruct (output_entries_present _ _ _ _ _ Hout Ht) as (d & Hd & Hdl).
  pose proof (output_entries_true _ _ _ _ _ Hout Ht) as Htr.
  exists (h1 ++ [ODict entries]). split.
  - unfold get_output.
    rewrite (run_bind _ _ _ _ _ Hor), (run_bind _ _ _ _ _ Hev).
    rewrite (run_bind _ _ _ _ _ (run_truthy _ _)), Htr.
    step ltac:(apply run_ret). rewrite Hd.
    step ltac:(eapply run_copy_copy; hl).
    step ltac:(by apply run_get_output_key_none). cbn [key_true].
    step ltac:(eapply run_contains_present; [hl|done]). cbn [negb].
    step ltac:(eapply run_getitem; [hl|done]).
    rewrite ?run_bind_assoc. apply run_bind_raise.
    eapply run_getitem_missing; [hl|done].
  - intros l ob. apply lookup_app_l_Some.
Qed.

Lemma get_output_plain_other_task_witness :
  ∃ h',
    get_output evaluate_paths t2_plain_one no_publish result_a store_plain
      = (Raise KeyError, h') ∧
    ∀ l ob, store_plain !! l = Some ob → h' !! l = Some ob.
Proof.
  apply (get_output_plain_other_task evaluate_paths t2_plain_one no_publish
           result_a store_plain VNone store_plain
           [("task", VRef 13)] 13 [("t1", VRef 14)]);
    reflexivity.
Defined.

(** X6: with a publish clause, when the task output holds under the
    designated key something that is not a list, [get_output] raises
    [AttributeError] at the [append]; no existing object has changed.
    The designated key ['task'] runs into this at its second result, the
    mirror dict of the first one being what the output holds under
    ['task']. *)
Theorem get_output_publish_not_a_list
    ev task_db spec r h pub h1 k proj entries v :
  evaluation ev spec r h = (Return pub, h1) →
  designated_key h1 spec = Some k →
  dict_at h1 pub = Some proj →
  output_entries h1 (output task_db) = Some entries →
  dict_get k entries = Some v →
  valid h1 v = true →
  list_at h1 v = None →
  ∃ h',
    get_output ev task_db spec r h = (Raise AttributeError, h') ∧
    ∀ l ob, h1 !! l = Some ob → h' !! l = Some ob.
Proof.
  intros Hev Hkey Hproj Hout Hk Hv Hnl.
  apply run_bind_inv in Hev as (ctx & hc & Hor & Hev).
  apply dict_at_ref in Hproj as (q & -> & Hq).
  destruct (output_entries_present _ _ _ _ _ Hout Hk) as (d & Hd & Hdl).
  pose proof (output_entries_true _ _ _ _ _ Hout Hk) as Htr.
  exists (h1 ++ [ODict entries]). split.
  - unfold get_output.
    rewrite (run_bind _ _ _ _ _ Hor), (run_bind _ _ _ _ _ Hev).
    rewrite (run_bind _ _ _ _ _ (run_truthy _ _)), Htr.
    step ltac:(apply run_ret). rewrite Hd.
    step ltac:(eapply run_copy_copy; hl).
    step ltac:(eapply run_get_output_key_some, designated_key_app, Hkey).
    rewrite (proj2 (run_get_output_key_some _ _ _ Hkey)). cbn [key_str].
    step ltac:(eapply run_contains_present; [hl|done]).
    step ltac:(eapply run_getitem; [hl|done]).
    step ltac:(eapply run_get; hl).
    step ltac:(apply run_py_or_ret).
    rewrite ?run_bind_assoc. apply run_bind_raise.
    apply run_append_not_list.
    destruct v as [| | | |l]; try done. simpl in *.
    apply Nat.ltb_lt in Hv. rewrite lookup_app_l by done. exact Hnl.
  - intros l ob. apply lookup_app_l_Some.
Qed.

Lemma get_output_publish_not_a_list_witness :
  ∃ h',
    get_output evaluate_paths t1_task_one publish_task result_b store_task
      = (Raise AttributeError, h') ∧
    ∀ l ob, (store_task ++ [ODict [("task", VStr "b")]]) !! l = Some ob →
            h' !! l = Some ob.
Proof.
  apply (get_output_publish_not_a_list evaluate_paths t1_task_one publish_task
           result_b store_task (VRef 16)
           (store_task ++ [ODict [("task", VStr "b")]]) "task"
           [("task", VStr "b")] [("task", VRef 13)] (VRef 13));
    reflexivity.
Defined.

(** X7: with a publish clause whose designated key [k] is not ['task'],
    when the task output already holds a list under [k], the dict
    [get_output] returns is a new object and the caller's dict object
    keeps its entries, but both hold under [k] the one list object, which
    has grown by one entry. *)
Theorem get_output_aliases_sequence
    ev task_db spec r h pub h1 k proj entries s old :
  evaluation ev spec r h = (Return pub, h1) →
  designated_key h1 spec = Some k →
  dict_at h1 pub = Some proj →
  output_entries h1 (output task_db) = Some entries →
  dict_get k entries = Some (VRef s) →
  h1 !! s = Some (OList old) →
  k ≠ "task" →
  ∃ task_db' out h' xs,
    get_output ev task_db spec r h = (Return (task_db', out), h') ∧
    out ≠ output task_db ∧
    dict_at h' (output task_db) = Some entries ∧
    lookup_path h' out [k] = Some (VRef s) ∧
    lookup_path h' (output task_db) [k] = Some (VRef s) ∧
    h' !! s = Some (OList xs) ∧ length xs = S (length old).
Proof.
  intros Hev Hkey Hproj Hout Hk Hs Hne.
  destruct (output_entries_present _ _ _ _ _ Hout Hk) as (d & Hd & Hdl).
  set (v := chosen (h1 ++ [ODict entries])
              (default VNone (dict_get k proj)) (error r)).
  assert (Hlen : length h1 = length (<[s:=OList (old ++ [v])]> h1))
    by (by rewrite length_insert).
  eexists task_db, _, _, (old ++ [v]). split.
  { by eapply get_output_publish_present. }
  fold v.
  assert (Hd' : (<[s:=OList (old ++ [v])]> h1 ++
                   [ODict (dict_set "task" (VRef (length h1 + 2)) entries);
                    ODict [(k, VRef s)];
                    ODict [(name task_db, VRef (length h1 + 1))]]) !! d
                = Some (ODict entries)).
  { apply lookup_app_l_Some. eapply lookup_store_ne; [done|]. congruence. }
  split.
  { rewrite Hd. intros [= E]. apply lookup_lt_Some in Hdl. lia. }
  rewrite Hd. simpl. rewrite Hd', Hk.
  split; [done|]. split.
  { rewrite Hlen at 1. rewrite lookup_end. simpl.
    by rewrite dict_get_set_ne, Hk. }
  split; [done|]. split.
  { apply lookup_app_l_Some. by eapply lookup_store_eq. }
  rewrite length_app. simpl. lia.
Qed.

Lemma get_output_aliases_sequence_witness :
  ∃ task_db' out h' xs,
    get_output evaluate_paths t1_one publish_result result_b store0
      = (Return (task_db', out), h') ∧
    out ≠ output t1_one ∧
    dict_at h' (output t1_one) = Some [("result", VRef 8); ("task", VRef 9)] ∧
    lookup_path h' out ["result"] = Some (VRef 8) ∧
    lookup_path h' (output t1_one) ["result"] = Some (VRef 8) ∧
    h' !! 8 = Some (OList xs) ∧ length xs = 2.
Proof.
  apply (get_output_aliases_sequence evaluate_paths t1_one publish_result
           result_b store0 (VRef 12)
           (store0 ++ [ODict [("result", VStr "b")]]) "result"
           [("result", VStr "b")]
           [("result", VRef 8); ("task", VRef 9)] 8 [VStr "a"]);
    try reflexivity.
  by vm_compute.
Defined.

(** ** [get_output] followed by [is_iteration_incomplete] *)

Lemma is_iteration_incomplete_plain_run task_db spec h main_key e rest source xs :
  dict_at h (get_with_items spec) = Some ((main_key, e) :: rest) →
  lookup_path h (input task_db) [main_key] ≫= list_at h = Some source →
  get_publish spec = VNone →
  lookup_path h (output task_db) ["task"; name task_db] ≫= list_at h
    = Some xs →
  is_iteration_incomplete task_db spec h
    = (Return (Nat.ltb (length xs) (length source)), h).
Proof.
  intros Hwi Hsrc Hp Hm.
  apply dict_at_ref in Hwi as (w & Hw & Hwl).
  simpl in Hsrc, Hm.
  destruct (dict_at h (input task_db)) as [di|] eqn:Hdi; [|done].
  destruct (dict_get main_key di) as [sv|] eqn:Hsv; [|done].
  apply dict_at_ref in Hdi as (li & Hi & Hil).
  apply list_at_ref in Hsrc as (ls & -> & Hsl).
  destruct (dict_at h (output task_db)) as [do|] eqn:Hdo; [|done].
  destruct (dict_get "task" do) as [tv|] eqn:Htv; [|done].
  destruct (dict_at h tv) as [dt|] eqn:Hdt; [|done].
  destruct (dict_get (name task_db) dt) as [mv|] eqn:Hmv; [|done].
  apply dict_at_ref in Hdo as (lo & Ho & Hol).
  apply dict_at_ref in Hdt as (lt & -> & Htl).
  apply list_at_ref in Hm as (lm & -> & Hml).
  unfold is_iteration_incomplete. rewrite Hw, Hi, Ho.
  step ltac:(eapply run_keys; hl). cbn [map fst].
  step ltac:(apply run_ret).
  step ltac:(eapply run_getitem; [hl|done]).
  step ltac:(eapply run_len_list; hl).
  step ltac:(by apply run_get_output_key_none). cbn [key_true].
  step ltac:(eapply run_getitem; [hl|done]).
  step ltac:(eapply run_getitem; [hl|done]).
  step ltac:(eapply run_len_list; hl).
  done.
Qed.

Lemma is_iteration_incomplete_publish_run
    task_db spec h main_key e rest source k xs :
  dict_at h (get_with_items spec) = Some ((main_key, e) :: rest) →
  lookup_path h (input task_db) [main_key] ≫= list_at h = Some source →
  designated_key h spec = Some k →
  lookup_path h (output task_db) ["task"; name task_db; k] ≫= list_at h
    = Some xs →
  is_iteration_incomplete task_db spec h
    = (Return (Nat.ltb (length xs) (length source)), h).
Proof.
  intros Hwi Hsrc Hkey Hm.
  apply dict_at_ref in Hwi as (w & Hw & Hwl).
  simpl in Hsrc, Hm.
  destruct (dict_at h (input task_db)) as [di|] eqn:Hdi; [|done].
  destruct (dict_get main_key di) as [sv|] eqn:Hsv; [|done].
  apply dict_at_ref in Hdi as (li & Hi & Hil).
  apply list_at_ref in Hsrc as (ls & -> & Hsl).
  destruct (dict_at h (output task_db)) as [do|] eqn:Hdo; [|done].
  destruct (dict_get "task" do) as [tv|] eqn:Htv; [|done].
  destruct (dict_at h tv) as [dt|] eqn:Hdt; [|done].
  destruct (dict_get (name task_db) dt) as [nv|] eqn:Hnv; [|done].
  destruct (dict_at h nv) as [dn|] eqn:Hdn; [|done].
  destruct (dict_get k dn) as [mv|] eqn:Hmv; [|done].
  apply dict_at_ref in Hdo as (lo & Ho & Hol).
  apply dict_at_ref in Hdt as (lt & -> & Htl).
  apply dict_at_ref in Hdn as (ln & -> & Hnl).
  apply list_at_ref in Hm as (lm & -> & Hml).
  unfold is_iteration_incomplete. rewrite Hw, Hi, Ho.
  step ltac:(eapply run_keys; hl). cbn [map fst].
  step ltac:(apply run_ret).
  step ltac:(eapply run_getitem; [hl|done]).
  step ltac:(eapply run_len_list; hl).
  step ltac:(eapply run_get_output_key_some, Hkey).
  rewrite (proj2 (run_get_output_key_some _ _ _ Hkey)). cbn [key_str].
  step ltac:(eapply run_getitem; [hl|done]).
  step ltac:(eapply run_getitem; [hl|done]).
  step ltac:(eapply run_getitem; [hl|done]).
  step ltac:(eapply run_len_list; hl).
  done.
Qed.

Lemma sequence_not_dict h entries k old w d :
  sequence_under h entries k = Some old → h !! w = Some (ODict d) →
  dict_get k entries ≠ Some (VRef w).
Proof.
  unfold sequence_under. intros Hseq Hw Hk. rewrite Hk in Hseq.
  simpl in Hseq. by rewrite Hw in Hseq.
Qed.

Lemma mirror_not_dict h entries t old w d :
  mirror_under h entries t = Some old → h !! w = Some (ODict d) →
  (tv ← dict_get "task" entries; lookup_path h tv [t]) ≠ Some (VRef w).
Proof.
  unfold mirror_under. intros Hm Hw Hk.
  destruct (dict_get "task" entries) as [tv|]; [|done].
  simpl in Hk, Hm. rewrite Hk in Hm. simpl in Hm. by rewrite Hw in Hm.
Qed.

(** X8: once the caller has stored what [get_output] returned,
    [is_iteration_incomplete] sees one entry more than before: it returns
    whether [count + 1 < L], for [count] the entries the sequence had and
    [L] the length of the first with-items source list (which must not be
    the very list the results are collected in). *)
Theorem get_output_then_is_iteration_incomplete :
  (∀ ev task_db spec r h pub h1 k proj entries old main_key e rest src source,
     evaluation ev spec r h = (Return pub, h1) →
     designated_key h1 spec = Some k →
     dict_at h1 pub = Some proj →
     output_entries h1 (output task_db) = Some entries →
     sequence_under h1 entries k = Some old →
     dict_at h1 (get_with_items spec) = Some ((main_key, e) :: rest) →
     lookup_path h1 (input task_db) [main_key] = Some src →
     list_at h1 src = Some source →
     dict_get k entries ≠ Some src →
     ∃ task_db' out h',
       get_output ev task_db spec r h = (Return (task_db', out), h') ∧
       is_iteration_incomplete (set_output task_db' out) spec h'
         = (Return (Nat.ltb (S (length old)) (length source)), h')) ∧
  (∀ ev task_db spec r h pub h1 entries old main_key e rest src source,
     get_publish spec = VNone →
     evaluation ev spec r h = (Return pub, h1) →
     output_entries h1 (output task_db) = Some entries →
     mirror_under h1 entries (name task_db) = Some old →
     dict_at h1 (get_with_items spec) = Some ((main_key, e) :: rest) →
     lookup_path h1 (input task_db) [main_key] = Some src →
     list_at h1 src = Some source →
     (t ← dict_get "task" entries; lookup_path h1 t [name task_db]) ≠ Some src →
     ∃ task_db' out h',
       get_output ev task_db spec r h = (Return (task_db', out), h') ∧
       is_iteration_incomplete (set_output task_db' out) spec h'
         = (Return (Nat.ltb (S (length old)) (length source)), h')).
Proof.
  split.
  - intros ev task_db spec r h pub h1 k proj entries old main_key e rest src
      source Hev Hkey Hproj Hout Hseq Hwi Hin Hsrc Hne.
    destruct (get_output_publish_full ev task_db spec r h pub h1 k proj entries old)
      as (c & s & o & i & v & h' & Hget & Hc & Hcl & Ho & Hi & Hs & Hfr & _);
      try done.
    assert (Hdict : ∀ l d, h1 !! l = Some (ODict d) → h' !! l = Some (ODict d)).
    { intros l d Hl. apply Hfr; [done|]. by eapply sequence_not_dict. }
    exists (refilled h1 task_db), (VRef c), h'. split; [done|].
    replace (S (length old)) with (length (old ++ [v]))
      by (rewrite length_app; simpl; lia).
    apply dict_at_ref in Hwi as (w & Hw & Hwl).
    simpl in Hin.
    destruct (dict_at h1 (input task_db)) as [di|] eqn:Hdi; [|done].
    apply dict_at_ref in Hdi as (li & Hli & Hdi).
    destruct (dict_get main_key di) as [sv|] eqn:Hsv; [|done].
    injection Hin as ->.
    apply list_at_ref in Hsrc as (ls & -> & Hls).
    eapply (is_iteration_incomplete_publish_run _ spec h' main_key e rest).
    + rewrite Hw. simpl. by rewrite (Hdict _ _ Hwl).
    + simpl. rewrite refilled_input, Hli. simpl.
      rewrite (Hdict _ _ Hdi), Hsv. simpl. by rewrite (Hfr _ _ Hls Hne).
    + eapply designated_key_frame; [exact Hkey|exact Hdict].
    + simpl. rewrite refilled_name, Hcl, dict_get_set_eq. simpl.
      rewrite Ho. simpl. rewrite String.eqb_refl. simpl. rewrite Hi. simpl.
      rewrite String.eqb_refl. simpl. by rewrite Hs.
  - intros ev task_db spec r h pub h1 entries old main_key e rest src source
      Hp Hev Hout Hm Hwi Hin Hsrc Hne.
    destruct (get_output_plain_full ev task_db spec r h pub h1 entries old)
      as (c & o & s & tm & h' & Hget & Hc & Hcl & Ho & Htm & Hs & Hfr & _);
      try done.
    assert (Hdict : ∀ l d, h1 !! l = Some (ODict d) → h' !! l = Some (ODict d)).
    { intros l d Hl. apply Hfr; [done|]. by eapply mirror_not_dict. }
    exists (refilled h1 task_db), (VRef c), h'. split; [done|].
    replace (S (length old)) with (length (old ++ [error r]))
      by (rewrite length_app; simpl; lia).
    apply dict_at_ref in Hwi as (w & Hw & Hwl).
    simpl in Hin.
    destruct (dict_at h1 (input task_db)) as [di|] eqn:Hdi; [|done].
    apply dict_at_ref in Hdi as (li & Hli & Hdi).
    destruct (dict_get main_key di) as [sv|] eqn:Hsv; [|done].
    injection Hin as ->.
    apply list_at_ref in Hsrc as (ls & -> & Hls).
    eapply (is_iteration_incomplete_plain_run _ spec h' main_key e rest).
    + rewrite Hw. simpl. by rewrite (Hdict _ _ Hwl).
    + simpl. rewrite refilled_input, Hli. simpl.
      rewrite (Hdict _ _ Hdi), Hsv. simpl. by rewrite (Hfr _ _ Hls Hne).
    + done.
    + simpl. rewrite refilled_name, Hcl, dict_get_set_eq. simpl.
      rewrite Ho, Htm. simpl. by rewrite Hs.
Qed.

Lemma get_output_then_is_iteration_incomplete_witness :
  (∃ task_db' out h',
     get_output evaluate_paths t1_one publish_result result_b store0
       = (Return (task_db', out), h') ∧
     is_iteration_incomplete (set_output task_db' out) publish_result h'
       = (Return (Nat.ltb 2 2), h')) ∧
  (∃ task_db' out h',
     get_output evaluate_paths t1_new no_publish result_a store0
       = (Return (task_db', out), h') ∧
     is_iteration_incomplete (set_output task_db' out) no_publish h'
       = (Return (Nat.ltb 1 2), h')).
Proof.
  split.
  - apply (proj1 get_output_then_is_iteration_incomplete evaluate_paths t1_one
             publish_result result_b store0 (VRef 12)
             (store0 ++ [ODict [("result", VStr "b")]]) "result"
             [("result", VStr "b")]
             [("result", VRef 8); ("task", VRef 9)] [VStr "a"]
             "itemX" (VRef 5) [("itemY", VRef 6)] (VRef 5) [VInt 1; VInt 2]);
      try reflexivity.
    by vm_compute.
  - apply (proj2 get_output_then_is_iteration_incomplete evaluate_paths t1_new
             no_publish result_a store0 VNone store0 [] []
             "itemX" (VRef 5) [("itemY", VRef 6)] (VRef 5) [VInt 1; VInt 2]);
      try reflexivity.
    by vm_compute.
Defined.

(** ** What only reads *)

Lemma read_only_ret {A} (a : A) : read_only (ret a).
Proof. done. Qed.

Lemma read_only_raise {A} e : read_only (@raise A e).
Proof. done. Qed.

Lemma read_only_bind {A B} (m : M A) (f : A → M B) :
  read_only m → (∀ a, read_only (f a)) → read_only (bind m f).
Proof.
  intros Hm Hf h. unfold bind. specialize (Hm h).
  destruct (m h) as [[e|a] h1]; simpl in *; subst; [done|apply Hf].
Qed.

Lemma read_only_load v : read_only (load v).
Proof. done. Qed.

Lemma read_only_truthy v : read_only (truthy v).
Proof. done. Qed.

Lemma read_only_first {A} (xs : list A) : read_only (first xs).
Proof. by destruct xs. Qed.

Lemma read_only_values v : read_only (values v).
Proof.
  apply read_only_bind; [apply read_only_load|].
  intros [[|]|]; done.
Qed.

Lemma read_only_keys v : read_only (keys v).
Proof.
  apply read_only_bind; [apply read_only_load|].
  intros [[|]|]; done.
Qed.

Lemma read_only_getitem v k : read_only (getitem v k).
Proof.
  apply read_only_bind; [apply read_only_load|].
  intros [[xs|d]|]; try done. by destruct (dict_get k d).
Qed.

Lemma read_only_len v : read_only (len v).
Proof.
  destruct v; try done.
  apply read_only_bind; [apply read_only_load|].
  intros [[|]|]; done.
Qed.

Lemma read_only_isinstance_list v : read_only (isinstance_list v).
Proof.
  apply read_only_bind; [apply read_only_load|].
  intros [[|]|]; done.
Qed.

Lemma read_only_list_comp {A B} (f : A → M B) xs :
  (∀ x, read_only (f x)) → read_only (list_comp f xs).
Proof.
  intros Hf. induction xs as [|x xs IH]; [done|]. simpl.
  apply read_only_bind; [apply Hf|]. intros y.
  apply read_only_bind; [apply IH|]. done.
Qed.

Lemma read_only_all_gen {A} (f : A → M bool) xs :
  (∀ x, read_only (f x)) → read_only (all_gen f xs).
Proof.
  intros Hf. induction xs as [|x xs IH]; [done|]. simpl.
  apply read_only_bind; [apply Hf|]. by intros [|].
Qed.

Lemma read_only_get_output_key spec : read_only (_get_output_key spec).
Proof.
  apply read_only_bind; [apply read_only_truthy|]. intros [|]; [|done].
  apply read_only_bind; [apply read_only_keys|]. intros ks.
  apply read_only_bind; [apply read_only_first|]. done.
Qed.

(** X9: [validate_input] has no side effect: whatever it is given, and
    whether it returns or raises, it leaves the store as it was. *)
Theorem validate_input_read_only with_items_input :
  read_only (validate_input with_items_input).
Proof.
  apply read_only_bind; [apply read_only_values|]. intros vs.
  apply read_only_bind.
  { apply read_only_list_comp, read_only_isinstance_list. }
  intros flags. destruct (negb (forallb id flags)); [done|].
  apply read_only_bind; [apply read_only_first|]. intros v0.
  apply read_only_bind; [apply read_only_len|]. intros n.
  apply read_only_bind.
  { apply read_only_all_gen. intros v.
    apply read_only_bind; [apply read_only_len|]. done. }
  by intros [|].
Qed.

(** X10: [is_iteration_incomplete] only reads: whatever task and spec it
    is given, and whether it returns or raises, it leaves the store as it
    was. *)
Theorem is_iteration_incomplete_read_only task_db spec :
  read_only (is_iteration_incomplete task_db spec).
Proof.
  apply read_only_bind; [apply read_only_keys|]. intros ks.
  apply read_only_bind; [apply read_only_first|]. intros mk.
  apply read_only_bind; [apply read_only_getitem|]. intros src.
  apply read_only_bind; [apply read_only_len|]. intros n.
  apply read_only_bind; [apply read_only_get_output_key|]. intros key.
  apply read_only_bind; [|done].
  destruct (key_true key).
  - apply read_only_bind; [apply read_only_getitem|]. intros t.
    apply read_only_bind; [apply read_only_getitem|]. intros tn.
    apply read_only_bind; [apply read_only_getitem|]. intros s.
    apply read_only_len.
  - apply read_only_bind; [apply read_only_getitem|]. intros t.
    apply read_only_bind; [apply read_only_getitem|]. intros tn.
    apply read_only_len.
Qed.

(** ** [validate_input] and [calc_input]: rejected input *)

Lemma lists_of_length_complete h (d : dict) n :
  forallb (is_list h) (map snd d)
  && forallb (fun v => Nat.eqb (list_length h v) n) (map snd d) = true →
  lists_of_length h n d.
Proof.
  induction d as [|[k v] d IH]; simpl; [constructor|].
  intros [[Hv Hvs]%andb_true_iff [Hl Hls]%andb_true_iff]%andb_true_iff.
  constructor.
  - simpl. unfold is_list in Hv. apply bool_decide_eq_true in Hv as [xs Hxs].
    exists xs. split; [done|]. apply Nat.eqb_eq in Hl.
    unfold list_length in Hl. by rewrite Hxs in Hl.
  - apply IH. by rewrite Hvs, Hls.
Qed.

Lemma lists_of_length_first h L k0 v0 (rest : dict) :
  lists_of_length h L ((k0, v0) :: rest) → list_length h v0 = L.
Proof.
  intros [(xs & Hxs & Hlen) _]%Forall_cons. simpl in Hxs.
  unfold list_length. by rewrite Hxs.
Qed.

Lemma validate_input_accepts l (d : dict) h L :
  h !! l = Some (ODict d) → d ≠ [] → lists_of_length h L d →
  validate_input (VRef l) h = (Return tt, h).
Proof.
  intros Hl Hne Hall. rewrite (validate_input_dict _ _ _ Hl).
  destruct d as [|[k0 v0] rest]; [done|].
  rewrite (lists_of_length_valid h L _ _ Hall); [done|].
  by eapply lists_of_length_first.
Qed.

Lemma validate_input_rejects l (d : dict) h :
  h !! l = Some (ODict d) → d ≠ [] → (¬ ∃ L, lists_of_length h L d) →
  validate_input (VRef l) h = (Raise InputException, h).
Proof.
  intros Hl Hne Hall. rewrite (validate_input_dict _ _ _ Hl).
  destruct d as [|[k0 v0] rest]; [done|].
  destruct (_ && _) eqn:E; [|done].
  exfalso. apply Hall. eexists. by apply lists_of_length_complete.
Qed.

(** X11: on a non-empty dict [validate_input] returns exactly when every
    value is a list and all lists have one length; in every other case
    it raises [InputException].  The store is as it was in both cases. *)
Theorem validate_input_nonempty l (d : dict) h :
  h !! l = Some (ODict d) →
  d ≠ [] →
  ((∃ L, lists_of_length h L d) →
   validate_input (VRef l) h = (Return tt, h)) ∧
  ((¬ ∃ L, lists_of_length h L d) →
   validate_input (VRef l) h = (Raise InputException, h)).
Proof.
  intros Hl Hne. split.
  - intros [L Hall]. by eapply validate_input_accepts.
  - by apply validate_input_rejects.
Qed.

Lemma validate_input_nonempty_witness :
  ((∃ L, lists_of_length store0 L [("itemX", VRef 5); ("itemY", VRef 6)]) →
   validate_input (VRef 4) store0 = (Return tt, store0)) ∧
  ((¬ ∃ L, lists_of_length store0 L [("itemX", VRef 5); ("itemY", VRef 6)]) →
   validate_input (VRef 4) store0 = (Raise InputException, store0)).
Proof.
  apply (validate_input_nonempty 4 [("itemX", VRef 5); ("itemY", VRef 6)] store0).
  - reflexivity.
  - discriminate.
Defined.

(** X12: [calc_input] validates before it builds anything: on the empty
    dict it raises [IndexError], and on a non-empty dict with a value that
    is not a list, or with lists of different lengths, it raises
    [InputException]; in both cases nothing has been allocated. *)
Theorem calc_input_rejects l (d : dict) h :
  h !! l = Some (ODict d) →
  (d = [] → calc_input (VRef l) h = (Raise IndexError, h)) ∧
  (d ≠ [] → (¬ ∃ L, lists_of_length h L d) →
   calc_input (VRef l) h = (Raise InputException, h)).
Proof.
  intros Hl. split.
  - intros ->. unfold calc_input. apply run_bind_raise.
    by rewrite (validate_input_dict _ _ _ Hl).
  - intros Hne Hall. unfold calc_input. apply run_bind_raise.
    by eapply validate_input_rejects.
Qed.

Lemma calc_input_rejects_witness :
  ([("itemX", VRef 1); ("itemY", VRef 2)] = [] →
   calc_input (VRef 0) store_bad = (Raise IndexError, store_bad)) ∧
  ([("itemX", VRef 1); ("itemY", VRef 2)] ≠ [] →
   (¬ ∃ L, lists_of_length store_bad L [("itemX", VRef 1); ("itemY", VRef 2)]) →
   calc_input (VRef 0) store_bad = (Raise InputException, store_bad)).
Proof.
  apply (calc_input_rejects 0 [("itemX", VRef 1); ("itemY", VRef 2)] store_bad).
  reflexivity.
Defined.

(** The two rejected mappings of the specification's examples. *)
Example calc_input_rejects_examples :
  calc_input (VRef 0) store_bad = (Raise InputException, store_bad) ∧
  calc_input (VRef 3) store_bad = (Raise InputException, store_bad).
Proof. split; vm_compute; reflexivity. Qed.

(** ** [calc_input]: what it builds *)

Lemma calc_input_run h l k0 v0 (rest : dict) xs0 L :
  h !! l = Some (ODict ((k0, v0) :: rest)) →
  lists_of_length h L ((k0, v0) :: rest) →
  list_at h v0 = Some xs0 →
  ∃ tail,
    calc_input (VRef l) h
    = (Return (VRef (length h)),
       shape h (fold_left (bind_source h) rest
                  (map (fun x => [(k0, x)]) xs0)) tail).
Proof.
  intros Hl Hall Hxs0.
  pose proof Hall as Hall'.
  apply Forall_cons in Hall' as [(xs & Hxs & Hlen0) Hrest]. simpl in Hxs.
  rewrite Hxs0 in Hxs. injection Hxs as <-.
  assert (Hval : validate_input (VRef l) h = (Return tt, h))
    by (by eapply validate_input_accepts).
  rewrite (calc_input_loops _ _ _ Hl Hval).
  set (ms0 := map (fun x => [(k0, x)]) xs0).
  destruct (outer_loop_next h L rest ms0 [] Hrest) as [tail' Hloop].
  { unfold ms0. by rewrite length_map. }
  exists tail'.
  assert (Hrun : for_each ((k0, v0) :: rest) (outer_body (VRef (length h)))
                   (shape h [] [])
                 = (Return tt, shape h (fold_left (bind_source h) rest ms0) tail')).
  { simpl. unfold outer_body at 1. cbn [fst snd].
    apply list_at_ref in Hxs0 as (s0 & -> & Hs0).
    rewrite run_bind_assoc.
    rewrite (run_bind _ _ _ _ _
               (run_iter_list _ _ _ (shape_old _ _ _ _ _ Hs0))).
    unfold enumerate.
    rewrite (run_bind _ _ _ _ _ (inner_loop_first h k0 xs0 [])).
    exact Hloop. }
  by rewrite Hrun.
Qed.

Lemma lists_of_length_head h L (d : dict) :
  d ≠ [] → lists_of_length h L d →
  ∃ k0 v0 rest xs0,
    d = (k0, v0) :: rest ∧ list_at h v0 = Some xs0 ∧ length xs0 = L.
Proof.
  destruct d as [|[k0 v0] rest]; [done|]. intros _ Hall.
  apply Forall_cons in Hall as [(xs & Hxs & Hlen) _]. eauto 10.
Qed.

(** X13: on a mapping it accepts, [calc_input] only allocates: the store
    it leaves is the store it was called in followed by new objects, so
    the mapping and its lists are as they were; the list it returns is one
    of the new objects. *)
Theorem calc_input_only_allocates h l (d : dict) L :
  h !! l = Some (ODict d) →
  d ≠ [] →
  lists_of_length h L d →
  ∃ c h' ext,
    calc_input (VRef l) h = (Return c, h') ∧
    h' = h ++ ext ∧
    valid h c = false.
Proof.
  intros Hl Hne Hall.
  destruct (lists_of_length_head h L d Hne Hall)
    as (k0 & v0 & rest & xs0 & -> & Hxs0 & Hlen0).
  destruct (calc_input_run h l k0 v0 rest xs0 L Hl Hall Hxs0) as [tail Hrun].
  eexists _, _, _. split; [exact Hrun|]. split; [done|].
  by apply valid_fresh.
Qed.

Lemma calc_input_only_allocates_witness :
  ∃ c h' ext,
    calc_input (VRef 4) store0 = (Return c, h') ∧
    h' = store0 ++ ext ∧
    valid store0 c = false.
Proof.
  apply (calc_input_only_allocates store0 4
           [("itemX", VRef 5); ("itemY", VRef 6)] 2).
  - reflexivity.
  - discriminate.
  - repeat constructor; eexists; split; reflexivity.
Defined.

(** X14: the dicts [calc_input] returns are new objects, one per
    iteration and no two the same, so the input of one iteration is
    shared neither with another iteration nor with anything that existed
    before the call. *)
Theorem calc_input_rows_fresh h l (d : dict) L :
  h !! l = Some (ODict d) →
  d ≠ [] →
  lists_of_length h L d →
  ∃ c h' rows,
    calc_input (VRef l) h = (Return c, h') ∧
    list_at h' c = Some rows ∧
    NoDup rows ∧
    ∀ row, row ∈ rows → valid h row = false ∧ is_Some (dict_at h' row).
Proof.
  intros Hl Hne Hall.
  destruct (lists_of_length_head h L d Hne Hall)
    as (k0 & v0 & rest & xs0 & -> & Hxs0 & Hlen0).
  destruct (calc_input_run h l k0 v0 rest xs0 L Hl Hall Hxs0) as [tail Hrun].
  set (ms := fold_left (bind_source h) rest (map (fun x => [(k0, x)]) xs0)) in *.
  eexists _, _, _. split; [exact Hrun|].
  unfold list_at. rewrite shape_coll. split; [done|]. split.
  - assert (Inj (=) (=) VRef) by (by intros ?? [= ->]).
    apply (NoDup_fmap_2 VRef), NoDup_seq.
  - intros row Hin. apply list_elem_of_fmap in Hin as (j & -> & Hj).
    apply elem_of_seq in Hj as [Hj1 Hj2]. split.
    + apply valid_fresh. lia.
    + destruct (lookup_lt_is_Some_2 ms (j - S (length h))) as [m Hm]; [lia|].
      exists m. unfold dict_at.
      replace j with (S (length h) + (j - S (length h))) by lia.
      by rewrite (shape_row _ _ _ _ _ Hm).
Qed.

Lemma calc_input_rows_fresh_witness :
  ∃ c h' rows,
    calc_input (VRef 4) store0 = (Return c, h') ∧
    list_at h' c = Some rows ∧
    NoDup rows ∧
    ∀ row, row ∈ rows → valid store0 row = false ∧ is_Some (dict_at h' row).
Proof.
  apply (calc_input_rows_fresh store0 4
           [("itemX", VRef 5); ("itemY", VRef 6)] 2).
  - reflexivity.
  - discriminate.
  - repeat constructor; eexists; split; reflexivity.
Defined.






(** ** [is_iteration_incomplete]: when it raises *)

Lemma run_first_nil {A} h : @first A [] h = (Raise IndexError, h).
Proof. done. Qed.

(** X16: [is_iteration_incomplete] raises [IndexError] when the
    with-items clause is an empty dict, [KeyError] when the task input
    lacks the first with-items variable, and, without publish clause,
    [KeyError] when the task output is a dict without ['task'] entry, as
    it is before the first result is stored.  The store is as it was. *)
Theorem is_iteration_incomplete_raises :
  (∀ task_db spec h,
     dict_at h (get_with_items spec) = Some [] →
     is_iteration_incomplete task_db spec h = (Raise IndexError, h)) ∧
  (∀ task_db spec h main_key e rest di,
     dict_at h (get_with_items spec) = Some ((main_key, e) :: rest) →
     dict_at h (input task_db) = Some di →
     dict_get main_key di = None →
     is_iteration_incomplete task_db spec h = (Raise KeyError, h)) ∧
  (∀ task_db spec h main_key e rest source entries,
     dict_at h (get_with_items spec) = Some ((main_key, e) :: rest) →
     lookup_path h (input task_db) [main_key] ≫= list_at h = Some source →
     get_publish spec = VNone →
     dict_at h (output task_db) = Some entries →
     dict_get "task" entries = None →
     is_iteration_incomplete task_db spec h = (Raise KeyError, h)).
Proof.
  split; [|split].
  - intros task_db spec h Hwi.
    apply dict_at_ref in Hwi as (w & Hw & Hwl).
    unfold is_iteration_incomplete. rewrite Hw.
    step ltac:(eapply run_keys; hl). cbn [map].
    by apply run_bind_raise.
  - intros task_db spec h main_key e rest di Hwi Hdi Hk.
    apply dict_at_ref in Hwi as (w & Hw & Hwl).
    apply dict_at_ref in Hdi as (li & Hi & Hil).
    unfold is_iteration_incomplete. rewrite Hw, Hi.
    step ltac:(eapply run_keys; hl). cbn [map fst].
    step ltac:(apply run_ret).
    apply run_bind_raise. by eapply run_getitem_missing.
  - intros task_db spec h main_key e rest source entries Hwi Hsrc Hp Hout Ht.
    apply dict_at_ref in Hwi as (w & Hw & Hwl).
    simpl in Hsrc.
    destruct (dict_at h (input task_db)) as [di|] eqn:Hdi; [|done].
    destruct (dict_get main_key di) as [sv|] eqn:Hsv; [|done].
    apply dict_at_ref in Hdi as (li & Hi & Hil).
    apply list_at_ref in Hsrc as (ls & -> & Hsl).
    apply dict_at_ref in Hout as (lo & Ho & Hol).
    unfold is_iteration_incomplete. rewrite Hw, Hi, Ho.
    step ltac:(eapply run_keys; hl). cbn [map fst].
    step ltac:(apply run_ret).
    step ltac:(eapply run_getitem; [hl|done]).
    step ltac:(eapply run_len_list; hl).
    step ltac:(by apply run_get_output_key_none). cbn [key_true].
    rewrite ?run_bind_assoc. apply run_bind_raise.
    by eapply run_getitem_missing.
Qed.

Lemma is_iteration_incomplete_raises_witness :
  is_iteration_incomplete t5_new no_items store_empty
    = (Raise IndexError, store_empty) ∧
  is_iteration_incomplete t5_no_input no_publish_e store_empty
    = (Raise KeyError, store_empty) ∧
  is_iteration_incomplete t5_empty no_publish_e store_empty
    = (Raise KeyError, store_empty).
Proof.
  split; [|split].
  - apply (proj1 is_iteration_incomplete_raises t5_new no_items store_empty).
    reflexivity.
  - apply (proj1 (proj2 is_iteration_incomplete_raises) t5_no_input
             no_publish_e store_empty "itemE" (VRef 1) [] []);
      reflexivity.
  - apply (proj2 (proj2 is_iteration_incomplete_raises) t5_empty no_publish_e
             store_empty "itemE" (VRef 1) [] [] []);
      reflexivity.
Defined.
